(** * New-household monthly volume projection (app.py, tab "가정용")

    A shallow embedding of the computational part of [app.py]:
    the nested function [monthly_new], the loop that fills [calc], and the
    grouped sum [new_df], together with the Python and pandas operations
    they call ([int], [str], [str.split], integer true division, binary64
    multiplication, monthly [Period] arithmetic, [dropna], [concat],
    [groupby(...).sum()]).

    Numbers are modelled as the code has them: Python [int] is [Z],
    Python [float] is an IEEE-754 binary64 value, represented by
    [spec_float] with precision 53 and exponent bound 1024 and rounded to
    nearest, ties to even.  Exceptions are values of an error monad. *)

From Stdlib Require Import ZArith List Bool Lia Ascii String.
From Stdlib Require Import Permutation Sorted.
From Stdlib Require Import SpecFloat.
Import ListNotations.

Local Open Scope Z_scope.

(** ** Exceptions *)

Inductive exn : Type :=
| ValueError
| OverflowError
| ZeroDivisionError
| KeyError.

Inductive result (A : Type) : Type :=
| Ok (a : A)
| Raise (e : exn).

Arguments Ok {A} a.
Arguments Raise {A} e.

Definition bind {A B : Type} (r : result A) (k : A -> result B) : result B :=
  match r with
  | Ok a => k a
  | Raise e => Raise e
  end.

Notation "x <- r ;; k" := (bind r (fun x => k))
  (at level 61, r at next level, right associativity).
Notation "' p <- r ;; k" := (bind r (fun x => let 'p := x in k))
  (at level 61, p pattern, r at next level, right associativity).

Definition is_ok {A : Type} (r : result A) : bool :=
  match r with Ok _ => true | Raise _ => false end.

(** ** Python [float]: binary64 *)

Module Float.

Definition prec : Z := 53.
Definition emax : Z := 1024.

Definition float : Type := spec_float.

Definition mul : float -> float -> float := SFmul prec emax.
Definition add : float -> float -> float := SFadd prec emax.
Definition sub : float -> float -> float := SFsub prec emax.
Definition ltb : float -> float -> bool := SFltb.

Definition zero : float := S754_zero false.

(** The binary64 value nearest to the integer [z]; used to write float
    literals such as [30.0] as [of_Z 30]. *)
Definition of_Z (z : Z) : float := binary_normalize prec emax z 0 false.

Definition is_nan (f : float) : bool :=
  match f with S754_nan => true | _ => false end.

Definition is_inf (f : float) : bool :=
  match f with S754_infinity _ => true | _ => false end.

(** Finite in the sense of [math.isfinite]: neither an infinity nor NaN. *)
Definition is_finite (f : float) : bool :=
  match f with
  | S754_zero _ | S754_finite _ _ _ => true
  | _ => false
  end.

(** [x == 0.0] in Python: true of both signed zeros. *)
Definition is_zero (f : float) : bool :=
  match f with S754_zero _ => true | _ => false end.

(** [x < 0.0] in Python. *)
Definition is_negative (f : float) : bool := ltb f zero.

(** Implicit conversion of an [int] operand in [int * float]
    (CPython [PyLong_AsDouble]): correctly rounded, and
    [OverflowError: int too large to convert to float] when the rounded
    value does not fit. *)
Definition of_int (z : Z) : result float :=
  let f := of_Z z in
  if is_inf f then Raise OverflowError else Ok f.

(** [a / b] on two Python [int]s (CPython [long_true_divide]): the
    exact quotient correctly rounded to binary64.  The dividend is scaled
    by [2^k] so that the integer quotient carries at least 55 bits; the
    remainder gives the rounding direction. *)
Definition int_truediv (a b : Z) : result float :=
  if b =? 0 then Raise ZeroDivisionError
  else
    let neg := xorb (a <? 0) (b <? 0) in
    if a =? 0 then Ok (S754_zero neg)
    else
      let ma := Z.abs a in
      let mb := Z.abs b in
      let k := Z.max 0 (Zdigits2 mb + 55 - Zdigits2 ma) in
      let '(q, r) := Z.div_eucl (Z.shiftl ma k) mb in
      let f := binary_round_aux prec emax neg q (- k) (new_location mb r) in
      if is_inf f then Raise OverflowError else Ok f.

End Float.

(** ** Python [str] and [int]

    Strings are sequences of ASCII characters; digits and white space
    outside ASCII, which [int] also accepts, are not modelled. *)

Module Py.

(** White space skipped by [int(s)] at both ends of an ASCII string
    (CPython [Py_ISSPACE]: tab, line feed, vertical tab, form feed,
    carriage return, space). *)
Definition is_space (c : ascii) : bool :=
  let n := Z.of_nat (nat_of_ascii c) in
  ((9 <=? n) && (n <=? 13)) || (n =? 32).

Definition digit_val (c : ascii) : option Z :=
  let n := Z.of_nat (nat_of_ascii c) in
  if (48 <=? n) && (n <=? 57) then Some (n - 48) else None.

Fixpoint all_space (s : string) : bool :=
  match s with
  | EmptyString => true
  | String c r => is_space c && all_space r
  end.

Fixpoint lstrip (s : string) : string :=
  match s with
  | EmptyString => EmptyString
  | String c r => if is_space c then lstrip r else s
  end.

(** The digits of a decimal literal, most significant first.  [acc] is
    the value read so far and [prev] tells whether the previous character
    was a digit: a single underscore is accepted between two digits only,
    and trailing white space only after a digit. *)
Fixpoint digits (s : string) (acc : Z) (prev : bool) : result Z :=
  match s with
  | EmptyString => if prev then Ok acc else Raise ValueError
  | String c r =>
      match digit_val c with
      | Some d => digits r (10 * acc + d) true
      | None =>
          if prev && Ascii.eqb c "_"%char then
            match r with
            | String c' _ =>
                match digit_val c' with
                | Some _ => digits r acc false
                | None => Raise ValueError
                end
            | EmptyString => Raise ValueError
            end
          else if prev && all_space s then Ok acc
          else Raise ValueError
      end
  end.

(** [int(s)] for a string [s], base 10:
    optional white space, optional sign, digits, optional white space;
    [ValueError] otherwise.  Literals of any length are read: the
    [ValueError] that CPython 3.11 and later raise, by default, beyond
    4300 digits is not modelled, so results that conclude from a
    successful conversion are stated for integers of at most 4300
    digits. *)
Definition int_of_string (s : string) : result Z :=
  match lstrip s with
  | String "-"%char r => n <- digits r 0 false ;; Ok (- n)
  | String "+"%char r => digits r 0 false
  | r => digits r 0 false
  end.

(** [s.split(sep)] for a one-character separator: never empty. *)
Fixpoint split (sep : ascii) (s : string) : list string :=
  match s with
  | EmptyString => [EmptyString]
  | String c r =>
      if Ascii.eqb c sep then EmptyString :: split sep r
      else
        match split sep r with
        | h :: t => String c h :: t
        | [] => [String c EmptyString]
        end
  end.

(** Decimal digits of a non-negative integer, as printed by [str]. *)
Definition digit_char (d : Z) : ascii := ascii_of_nat (Z.to_nat (48 + d)).

Fixpoint str_of_pos_fuel (fuel : nat) (n : Z) (acc : string) : string :=
  match fuel with
  | O => acc
  | S fuel' =>
      let acc' := String (digit_char (n mod 10)) acc in
      if n <? 10 then acc' else str_of_pos_fuel fuel' (n / 10) acc'
  end.

(** [str(n)] for an [int].  Integers of any size are printed: the
    [ValueError] of CPython 3.11 and later beyond 4300 digits is not
    modelled. *)
Definition str_of_int (n : Z) : string :=
  let body := str_of_pos_fuel (S (Z.to_nat (Z.log2 (Z.abs n)))) (Z.abs n) EmptyString in
  if n <? 0 then String "-"%char body else body.

End Py.

(** ** Cells of the edited table

    A cell of the data editor holds an integer, a string, or nothing
    (None / NaN).  A numeric cell holds a whole number: the column of
    unit counts is created from an integer, and [int] is the identity on
    it. *)

Inductive cell : Type :=
| VNone
| VInt (z : Z)
| VStr (s : string).

Definition isna (c : cell) : bool :=
  match c with VNone => true | _ => false end.

(** [int(v)] on a cell value.  [int(None)] is a [TypeError] and
    [int(nan)] a [ValueError]; both are modelled by [ValueError], as
    every exception is handled alike by the caller. *)
Definition py_int (c : cell) : result Z :=
  match c with
  | VInt z => Ok z
  | VStr s => Py.int_of_string s
  | VNone => Raise ValueError
  end.

(** [str(v)] on a cell value ([dropna] leaves no missing value to
    print). *)
Definition py_str (c : cell) : string :=
  match c with
  | VInt z => Py.str_of_int z
  | VStr s => s
  | VNone => "nan"%string
  end.

(** ** pandas [Period] (monthly) and [Timestamp] *)

(** A monthly period is its ordinal: the number of months since 1970-01. *)
Record Period : Type := { ordinal : Z }.

(** The timestamps of this program are all first days of a month at
    midnight, so a [Timestamp] is a year and a month. *)
Record Timestamp : Type := { year : Z; month : Z }.

(** [pd.Period(f"{y}-{m}", freq="M")] for two integers printed in
    decimal: the month [m] of the year [y]; a month outside 1..12 is not
    a date ([DateParseError], a [ValueError]).  This is the library's
    reading of a four-digit year; shorter year numbers go through its
    heuristic date parser, and no statement below concerns them. *)
Definition Period_parse (y m : Z) : result Period :=
  if (1 <=? m) && (m <=? 12)
  then Ok {| ordinal := (y - 1970) * 12 + (m - 1) |}
  else Raise ValueError.

(** [period + i] *)
Definition Period_add (p : Period) (i : Z) : Period :=
  {| ordinal := ordinal p + i |}.

(** First and last month whose first day is a representable
    (nanosecond, 64-bit) [Timestamp]: 1677-10 and 2262-04. *)
Definition ordinal_min : Z := (1677 - 1970) * 12 + 9.
Definition ordinal_max : Z := (2262 - 1970) * 12 + 3.

(** [period.to_timestamp()]: the first day of the month;
    [OutOfBoundsDatetime] (a [ValueError]) outside the representable
    range. *)
Definition to_timestamp (p : Period) : result Timestamp :=
  if (ordinal_min <=? ordinal p) && (ordinal p <=? ordinal_max)
  then Ok {| year := 1970 + ordinal p / 12; month := ordinal p mod 12 + 1 |}
  else Raise ValueError.

Definition Timestamp_eqb (a b : Timestamp) : bool :=
  (year a =? year b) && (month a =? month b).

(** Chronological order on timestamps. *)
Definition Timestamp_ltb (a b : Timestamp) : bool :=
  (year a <? year b) || ((year a =? year b) && (month a <? month b)).

(** ** [monthly_new] *)

(** One record of the frame built by [monthly_new]: the columns
    "연월" and "신규물량(㎥)". *)
Record row : Type := { ym : Timestamp; volume : Float.float }.

Definition DataFrame : Type := list row.

(** [y, m = map(int, start.split("-"))]: exactly two pieces, each an
    integer literal; [ValueError] otherwise. *)
Definition parse_start (start : string) : result (Z * Z) :=
  match Py.split "-"%char start with
  | [a; b] =>
      y <- Py.int_of_string a ;;
      m <- Py.int_of_string b ;;
      Ok (y, m)
  | _ => Raise ValueError
  end.

(** [hh*avg*(p/100)] *)
Definition new_volume (hh : Z) (avg : Float.float) (p : Z) : result Float.float :=
  h <- Float.of_int hh ;;
  q <- Float.int_truediv p 100 ;;
  Ok (Float.mul (Float.mul h avg) q).

(** The body of [for i,p in enumerate(ramp)], from index [i] on. *)
Fixpoint monthly_new_loop (hh y m : Z) (avg : Float.float)
    (i : Z) (ramp : list Z) : result DataFrame :=
  match ramp with
  | [] => Ok []
  | p :: rest =>
      per <- Period_parse y m ;;
      ts <- to_timestamp (Period_add per i) ;;
      v <- new_volume hh avg p ;;
      out <- monthly_new_loop hh y m avg (i + 1) rest ;;
      Ok ({| ym := ts; volume := v |} :: out)
  end.

Definition monthly_new (hh : Z) (start : string) (avg : Float.float)
    (ramp : list Z) : result DataFrame :=
  '(y, m) <- parse_start start ;;
  monthly_new_loop hh y m avg 0 ramp.

(** ** The parameters [hh_avg] and [ramp] *)

(** [ramp = [int(x) for x in str(...).split(",")]] *)
Fixpoint ints_of (l : list string) : result (list Z) :=
  match l with
  | [] => Ok []
  | s :: t =>
      z <- Py.int_of_string s ;;
      zs <- ints_of t ;;
      Ok (z :: zs)
  end.

Definition parse_ramp (s : string) : result (list Z) :=
  ints_of (Py.split ","%char s).

(** The defaults of the parameter table: 30.0 and "30,60,85,100". *)
Definition default_hh_avg : Float.float := Float.of_Z 30.
Definition default_ramp_text : string := "30,60,85,100".

(** ** The edited table [new_sites] and the list [calc] *)

(** A record of the table: the columns "단지", "세대수" and
    "입주개시(YYYY-MM)". *)
Record site : Type := { danji : cell; sedaesu : cell; ipju : cell }.

(** [new_sites.dropna()]: the records without a missing value. *)
Definition has_na (r : site) : bool :=
  isna (danji r) || isna (sedaesu r) || isna (ipju r).

Definition dropna (sites : list site) : list site :=
  filter (fun r => negb (has_na r)) sites.

(** The call inside [try]. *)
Definition project (avg : Float.float) (ramp : list Z) (r : site)
    : result DataFrame :=
  hh <- py_int (sedaesu r) ;;
  monthly_new hh (py_str (ipju r)) avg ramp.

(** The loop over the records: a frame is appended when the call
    returns, and [except Exception: pass] skips the record otherwise. *)
Fixpoint calc_loop (avg : Float.float) (ramp : list Z) (rows : list site)
    : list DataFrame :=
  match rows with
  | [] => []
  | r :: rest =>
      match project avg ramp r with
      | Ok df => df :: calc_loop avg ramp rest
      | Raise _ => calc_loop avg ramp rest
      end
  end.

Definition calc (avg : Float.float) (ramp : list Z) (new_sites : list site)
    : list DataFrame :=
  calc_loop avg ramp (dropna new_sites).

(** ** [new_df]: [pd.concat(calc).groupby("연월", as_index=False)[...].sum()] *)

(** What the [if calc:] block leaves behind. *)
Inductive outcome : Type :=
| NotComputed
| Computed (df : list (Timestamp * Float.float))
| Uncaught (e : exn).

(** The group keys of [groupby] (default [sort=True]): the distinct
    values of the key column in ascending order. *)
Fixpoint insert_key (k : Timestamp) (ks : list Timestamp) : list Timestamp :=
  match ks with
  | [] => [k]
  | h :: t =>
      if Timestamp_ltb k h then k :: ks
      else if Timestamp_eqb k h then ks
      else h :: insert_key k t
  end.

Definition group_keys (df : DataFrame) : list Timestamp :=
  fold_right insert_key [] (map ym df).

(** The values of one group, in the order of the records. *)
Definition group_values (k : Timestamp) (df : DataFrame) : list Float.float :=
  map volume (filter (fun r => Timestamp_eqb (ym r) k) df).

(** Two float reductions of a group.  [sum_left] adds from left to
    right starting at [0.0].  [sum_kahan] is the compensated sum of
    pandas' grouped [sum] kernel, which skips NaN values and clears a
    NaN compensation term. *)
Definition sum_left (l : list Float.float) : Float.float :=
  fold_left Float.add l Float.zero.

Definition kahan_step (st : Float.float * Float.float) (val : Float.float)
    : Float.float * Float.float :=
  let '(sumx, compensation) := st in
  if Float.is_nan val then st
  else
    let y := Float.sub val compensation in
    let t := Float.add sumx y in
    let c := Float.sub (Float.sub t sumx) y in
    (t, if Float.is_nan c then Float.zero else c).

Definition sum_kahan (l : list Float.float) : Float.float :=
  fst (fold_left kahan_step l (Float.zero, Float.zero)).

Section Aggregate.

(** The reduction applied to each group belongs to the library; the
    development is parametric in it. *)
Variable reduce : list Float.float -> Float.float.

Definition groupby_sum (df : DataFrame) : list (Timestamp * Float.float) :=
  map (fun k => (k, reduce (group_values k df))) (group_keys df).

(** A frame built from an empty list of records has no column, and
    neither has the concatenation of such frames: grouping it by "연월"
    is a [KeyError], which nothing handles. *)
Definition aggregate (frames : list DataFrame) : outcome :=
  match frames with
  | [] => NotComputed
  | _ =>
      match List.concat frames with
      | [] => Uncaught KeyError
      | df => Computed (groupby_sum df)
      end
  end.

Definition new_df (avg : Float.float) (ramp : list Z) (new_sites : list site)
    : outcome :=
  aggregate (calc avg ramp new_sites).

End Aggregate.

(** ** Vocabulary of the statements *)

(** Integers whose conversion to binary64 cannot overflow. *)
Definition float_range (z : Z) : Prop := Z.abs z < 2 ^ 1023.

(** The [n] months starting at month [m] of year [y] all have a
    representable timestamp. *)
Definition in_range (y m : Z) (n : nat) : Prop :=
  1 <= m <= 12 /\
  ordinal_min <= (y - 1970) * 12 + (m - 1) /\
  (y - 1970) * 12 + (m - 1) + Z.of_nat n <= ordinal_max + 1.

(** A finite float (zero included) with sign bit [s]. *)
Definition signed_finite (s : bool) (f : Float.float) : Prop :=
  match f with
  | S754_zero s' | S754_finite s' _ _ => s' = s
  | _ => False
  end.

(** Calendar successor, as the specification words it: month 13 of year
    Y is month 1 of year Y+1. *)
Definition next_month (t : Timestamp) : Timestamp :=
  if month t + 1 =? 13
  then {| year := year t + 1; month := 1 |}
  else {| year := year t; month := month t + 1 |}.

Definition months_after (i : nat) (t : Timestamp) : Timestamp :=
  Nat.iter i next_month t.

(** A record whose unit count or start period does not convert. *)
Definition malformed (r : site) : bool :=
  negb (is_ok (py_int (sedaesu r))) ||
  negb (is_ok (parse_start (py_str (ipju r)))).

Definition Timestamp_lt (a b : Timestamp) : Prop := Timestamp_ltb a b = true.

(** The contributions to one period, in the order in which the grouped
    sum meets them. *)
Definition contributions (avg : Float.float) (ramp : list Z)
    (new_sites : list site) (k : Timestamp) : list Float.float :=
  group_values k (List.concat (calc avg ramp new_sites)).

(** ** Records used in the examples *)

(** The record of the end-to-end example: 500 units starting 2026-03. *)
Definition example_site : site :=
  {| danji := VStr "A"; sedaesu := VInt 500; ipju := VStr "2026-03" |}.

(** A record with the unit count "abc" next to the record of the
    example. *)
Definition abc_site : site :=
  {| danji := VStr "B"; sedaesu := VStr "abc"; ipju := VStr "2026-03" |}.

(** A record with the negative unit count -5. *)
Definition negative_site : site :=
  {| danji := VStr "A"; sedaesu := VInt (-5); ipju := VStr "2026-03" |}.

(** Records of [n] units that all start in 2026-03. *)
Definition unit_site (n : Z) : site :=
  {| danji := VStr "A"; sedaesu := VInt n; ipju := VStr "2026-03" |}.

(** A record that starts in 2025-11, before the record of the example. *)
Definition earlier_site : site :=
  {| danji := VStr "C"; sedaesu := VInt 100; ipju := VStr "2025-11" |}.

(** A record with 0 units. *)
Definition zero_site : site :=
  {| danji := VStr "Z"; sedaesu := VInt 0; ipju := VStr "2026-03" |}.

(** The record of the example with its name missing. *)
Definition unnamed_site : site :=
  {| danji := VNone; sedaesu := VInt 500; ipju := VStr "2026-03" |}.

(** ** [get_param] and the parameter table

    A record of the table [params] is a pair of its columns "항목" and
    "값". *)

(** [params["항목"] == name] on one cell: equal strings; a missing or
    numeric cell is not equal to a string. *)
Definition key_matches (name : string) (k : cell) : bool :=
  match k with
  | VStr s => String.eqb s name
  | _ => false
  end.

(** [params[params["항목"]==name]["값"].iloc[0]]; on an empty selection
    [iloc[0]] raises [IndexError] and [except Exception] returns
    [default]. *)
Definition get_param {V : Type} (params : list (cell * V)) (name : string)
    (default : V) : V :=
  match filter (fun row => key_matches name (fst row)) params with
  | [] => default
  | row :: _ => snd row
  end.

Definition ramp_key : string := "입주 램프(1~4분기, %)".

(** [ramp = [int(x) for x in str(get_param(..., "30,60,85,100")).split(",")]],
    for a value cell that holds text, an integer or nothing (the text
    printed for a missing value is no integer literal either way). *)
Definition ramp_param (params : list (cell * cell)) : result (list Z) :=
  parse_ramp (py_str (get_param params ramp_key (VStr default_ramp_text))).

(** ** [pick_latest] *)

(** What the function reads of the file system: the paths matching a
    pattern, in the order [glob.glob] lists them, and the modification
    time [Path(p).stat().st_mtime] of a path, a float. *)
Record filesystem : Type :=
  { glob : string -> list string; st_mtime : string -> Float.float }.

(** [sorted(cands, key=..., reverse=True)]: descending by key, compared
    with [<] only; paths with equal keys keep their order (the sort is
    stable also when reversed).  A path goes behind the paths with a
    strictly later time and in front of all others. *)
Fixpoint insert_desc (fs : filesystem) (p : string) (l : list string)
    : list string :=
  match l with
  | [] => [p]
  | q :: t =>
      if Float.ltb (st_mtime fs p) (st_mtime fs q)
      then q :: insert_desc fs p t
      else p :: l
  end.

Definition sorted_desc (fs : filesystem) (l : list string) : list string :=
  fold_right (insert_desc fs) [] l.

(** [pick_latest]: [None] without candidates, else the head of the
    sorted candidates (the path that [Path(...)] wraps).  A file that
    vanishes between [glob] and [stat] is outside the model. *)
Definition pick_latest (fs : filesystem) (patterns : list string)
    : option string :=
  match flat_map (glob fs) patterns with
  | [] => None
  | cands => hd_error (sorted_desc fs cands)
  end.

(** ** More vocabulary *)

(** [sep.join(pieces)] *)
Fixpoint join (sep : ascii) (pieces : list string) : string :=
  match pieces with
  | [] => EmptyString
  | [p] => p
  | p :: rest => (p ++ String sep (join sep rest))%string
  end.

(** Number of occurrences of a character. *)
Fixpoint count_char (c : ascii) (s : string) : nat :=
  match s with
  | EmptyString => O
  | String c' r => if Ascii.eqb c' c then S (count_char c r) else count_char c r
  end.

(** Integers of at most 4300 decimal digits: beyond that, CPython 3.11
    and later refuse, by default, the conversion between [int] and [str]
    in either direction with a [ValueError]. *)
Definition max_str_digits : Z := 4300.

Definition str_convertible (z : Z) : Prop := Z.abs z < 10 ^ max_str_digits.

(** The same entry with the sign of the volume flipped; NaN, which
    carries no sign here, stays NaN. *)
Definition neg_row (r : row) : row :=
  {| ym := ym r; volume := SFopp (volume r) |}.

(** Total order behind [<] on floats that are not NaN: sign class,
    then exponent, then mantissa; both zeros rank equal. *)
Definition float_rank (f : Float.float) : Z * Z * Z :=
  match f with
  | S754_zero _ => (0, 0, 0)
  | S754_infinity false => (2, 0, 0)
  | S754_infinity true => (-2, 0, 0)
  | S754_finite false m e => (1, e, Zpos m)
  | S754_finite true m e => (-1, - e, Zneg m)
  | S754_nan => (0, 0, 0)
  end.

Definition rank_lt (a b : Z * Z * Z) : Prop :=
  let '(a1, a2, a3) := a in
  let '(b1, b2, b3) := b in
  a1 < b1 \/ (a1 = b1 /\ (a2 < b2 \/ (a2 = b2 /\ a3 < b3))).

(** A record of [n] units starting at [start], named [name]. *)
Definition site_of (name : cell) (n : Z) (start : string) : site :=
  {| danji := name; sedaesu := VInt n; ipju := VStr start |}.

(** [True] when the character occurs in the string. *)
Fixpoint has_char (c : ascii) (s : string) : bool :=
  match s with
  | EmptyString => false
  | String c' r => Ascii.eqb c' c || has_char c r
  end.

(** The later of a path and the best path found so far; the earlier
    path wins a tie. *)
Definition best_of (fs : filesystem) (x : string) (b : option string)
    : string :=
  match b with
  | None => x
  | Some q => if Float.ltb (st_mtime fs x) (st_mtime fs q) then q else x
  end.

(** A directory with two supply files, the second one modified later;
    both patterns of the call match both files. *)
Definition example_fs : filesystem :=
  {| glob := fun pat =>
       if String.eqb pat "data/supply_*.xlsx"
       then ["data/supply_2024.xlsx"; "data/supply_2025.xlsx"]%string
       else if String.eqb pat "data/*supply*.xlsx"
       then ["data/supply_2024.xlsx"; "data/supply_2025.xlsx"]%string
       else [];
     st_mtime := fun p =>
       if String.eqb p "data/supply_2025.xlsx"
       then Float.of_Z 1700000200
       else Float.of_Z 1700000100 |}.

(** A parameter table with a missing key and a repeated key. *)
Definition example_params : list (cell * cell) :=
  [ (VStr "a", VInt 1); (VNone, VInt 2); (VStr "b", VStr "x");
    (VStr "b", VStr "y") ].

(** * The primitives on concrete inputs *)

Example int_of_string_literals :
  map Py.int_of_string ["500"; " 5_00 "; "-5"; "+03"; "abc"; ""; "5 0"; "5_"]%string
  = [Ok 500; Ok 500; Ok (-5); Ok 3; Raise ValueError; Raise ValueError;
     Raise ValueError; Raise ValueError].
Proof. reflexivity. Qed.

Example split_on_dash :
  map (Py.split "-"%char) ["2026-03"; "bad"; ""; "-2026-03"]%string
  = [["2026"; "03"]; ["bad"]; [""]; [""; "2026"; "03"]]%string.
Proof. reflexivity. Qed.

Example parse_start_cases :
  map parse_start ["2026-03"; " 2026 - 3 "; "bad"; "2026-03-01"; "-2026-03"]%string
  = [Ok (2026, 3); Ok (2026, 3); Raise ValueError; Raise ValueError;
     Raise ValueError].
Proof. reflexivity. Qed.

(** [30/100] is the double 0x1.3333333333333p-2. *)
Example thirty_percent :
  Float.int_truediv 30 100 = Ok (S754_finite false 5404319552844595 (-54)).
Proof. reflexivity. Qed.

Example of_int_overflow :
  Float.of_int (10 ^ 400) = Raise OverflowError.
Proof. vm_compute. reflexivity. Qed.

(** December rolls over to January. *)
Example rollover :
  option_map (map ym)
    (match monthly_new 100 "2025-11" default_hh_avg [30; 60; 85; 100] with
     | Ok rows => Some rows
     | Raise _ => None
     end)
  = Some [ {| year := 2025; month := 11 |}; {| year := 2025; month := 12 |};
           {| year := 2026; month := 1 |}; {| year := 2026; month := 2 |} ].
Proof. vm_compute. reflexivity. Qed.

(** Two records equal to the example double every volume. *)
Example two_example_sites :
  new_df sum_kahan default_hh_avg [30; 60; 85; 100] [example_site; example_site]
  = Computed
      [ ({| year := 2026; month := 3 |}, Float.of_Z 9000);
        ({| year := 2026; month := 4 |}, Float.of_Z 18000);
        ({| year := 2026; month := 5 |}, Float.of_Z 25500);
        ({| year := 2026; month := 6 |}, Float.of_Z 30000) ].
Proof. vm_compute. reflexivity. Qed.

(** With an empty ramp every frame is empty and grouping raises. *)
Example empty_ramp_raises :
  new_df sum_kahan default_hh_avg [] [example_site] = Uncaught KeyError.
Proof. reflexivity. Qed.

Example no_record_no_frame :
  new_df sum_kahan default_hh_avg [30; 60; 85; 100] [abc_site; unnamed_site]
  = NotComputed.
Proof. reflexivity. Qed.

(** * Facts about binary64 rounding *)

Section Rounding.

Lemma digits2_pos_size (p : positive) : digits2_pos p = Pos.size p.
Proof. induction p; simpl; congruence. Qed.

Lemma Zdigits2_log2 (m : Z) : 0 < m -> Zdigits2 m = Z.log2 m + 1.
Proof.
  destruct m as [|p|p]; try lia. intros _. simpl.
  rewrite digits2_pos_size. destruct p; simpl; lia.
Qed.

Lemma Zdigits2_nonneg (m : Z) : 0 <= Zdigits2 m.
Proof. destruct m; simpl; lia. Qed.

Lemma Zdigits2_le (a b : Z) : 0 <= a <= b -> Zdigits2 a <= Zdigits2 b.
Proof.
  intros [Ha Hab].
  destruct (Z.eq_dec a 0) as [->|Hn]; [apply Zdigits2_nonneg|].
  rewrite !Zdigits2_log2 by lia.
  apply Z.add_le_mono_r, Z.log2_le_mono; lia.
Qed.

Lemma Zdigits2_succ (m : Z) : 0 <= m -> Zdigits2 (m + 1) <= Zdigits2 m + 1.
Proof.
  intros Hm. destruct (Z.eq_dec m 0) as [->|Hn]; [simpl; lia|].
  rewrite !Zdigits2_log2 by lia.
  pose proof (Z.log2_succ_le m). unfold Z.succ in *. lia.
Qed.

(** Dropping [k] low bits removes [k] digits. *)
Lemma Zdigits2_shift (m k : Z) :
  0 <= m -> 0 <= k -> Zdigits2 (m / 2 ^ k) + k <= Z.max (Zdigits2 m) k.
Proof.
  intros Hm Hk.
  assert (Hp : 0 < 2 ^ k) by (apply Z.pow_pos_nonneg; lia).
  assert (H0 : 0 <= m / 2 ^ k) by (apply Z.div_pos; assumption).
  assert (Hl : 0 < m / 2 ^ k -> Z.log2 (m / 2 ^ k) = Z.max 0 (Z.log2 m - k)).
  { intros Hq. rewrite <- Z.shiftr_div_pow2 by lia. apply Z.log2_shiftr.
    destruct (Z.eq_dec m 0) as [->|]; [|lia].
    rewrite Z.div_0_l in Hq; lia. }
  assert (Hm0 : m = 0 -> m / 2 ^ k = 0) by (intros ->; apply Z.div_0_l; lia).
  assert (Hk0 : 0 < m -> Z.log2 m < k -> m / 2 ^ k = 0).
  { intros Hpos Hlt. apply Z.div_small. split; [lia|].
    apply Z.log2_lt_pow2; assumption. }
  remember (m / 2 ^ k) as q eqn:Hq. clear Hq.
  destruct (Z.eq_dec q 0) as [->|Hn]; [change (Zdigits2 0) with 0; lia|].
  rewrite !Zdigits2_log2 by lia. lia.
Qed.

Lemma shr_1_m (mrs : shr_record) :
  0 <= shr_m mrs -> shr_m (shr_1 mrs) = shr_m mrs / 2.
Proof.
  destruct mrs as [m r s]; simpl. intros Hm.
  destruct m as [|p|p]; try lia; [reflexivity|].
  destruct p as [q|q|]; simpl shr_m.
  - rewrite Pos2Z.inj_xI. apply Z.div_unique with (r := 1); lia.
  - rewrite Pos2Z.inj_xO. apply Z.div_unique with (r := 0); lia.
  - reflexivity.
Qed.

Lemma iter_pos_shr_1_m (n : positive) : forall mrs,
  0 <= shr_m mrs ->
  shr_m (iter_pos shr_1 n mrs) = shr_m mrs / 2 ^ Zpos n.
Proof.
  induction n as [n IH|n IH|]; intros mrs Hm; simpl iter_pos.
  - assert (H1 : 0 <= shr_m (shr_1 mrs))
      by (rewrite shr_1_m by lia; apply Z.div_pos; lia).
    assert (H2 : 0 <= shr_m (iter_pos shr_1 n (shr_1 mrs)))
      by (rewrite IH by lia; apply Z.div_pos; lia).
    rewrite IH, IH, shr_1_m by lia.
    rewrite !Z.div_div by lia.
    f_equal.
    replace (Z.pos n~1) with (1 + Z.pos n + Z.pos n) by lia.
    rewrite !Z.pow_add_r by lia. lia.
  - assert (H2 : 0 <= shr_m (iter_pos shr_1 n mrs))
      by (rewrite IH by lia; apply Z.div_pos; lia).
    rewrite IH, IH by lia.
    rewrite !Z.div_div by lia.
    f_equal.
    replace (Z.pos n~0) with (Z.pos n + Z.pos n) by lia.
    rewrite !Z.pow_add_r by lia. lia.
  - rewrite shr_1_m by lia. reflexivity.
Qed.

Lemma fexp64 (x : Z) : fexp 53 1024 x = Z.max (x - 53) (-1074).
Proof. reflexivity. Qed.

Lemma shr_fexp_m (m e : Z) (l : location) :
  0 <= m ->
  snd (shr_fexp 53 1024 m e l) = Z.max e (fexp 53 1024 (Zdigits2 m + e)) /\
  shr_m (fst (shr_fexp 53 1024 m e l))
  = m / 2 ^ (snd (shr_fexp 53 1024 m e l) - e).
Proof.
  intros Hm. unfold shr_fexp, shr.
  assert (Hs : shr_m (shr_record_of_loc m l) = m)
    by (destruct l as [|[]]; reflexivity).
  destruct (fexp 53 1024 (Zdigits2 m + e) - e) as [|n|n] eqn:Hn;
    simpl fst; simpl snd.
  - rewrite Z.sub_diag, Z.div_1_r. split; [lia|auto].
  - split; [lia|].
    rewrite iter_pos_shr_1_m by lia. rewrite Hs. f_equal. f_equal. lia.
  - rewrite Z.sub_diag, Z.div_1_r. split; [lia|auto].
Qed.

Lemma round_nearest_even_bounds (m : Z) (l : location) :
  m <= round_nearest_even m l <= m + 1.
Proof.
  destruct l as [|[]]; simpl; try lia. destruct (Z.even m); lia.
Qed.

(** Rounding a magnitude below [2^1023] never overflows, never yields
    NaN, and keeps the sign. *)
Lemma binary_round_aux_finite (s : bool) (m e : Z) (l : location) :
  0 <= m -> e <= 971 -> Zdigits2 m + e <= 1023 ->
  signed_finite s (binary_round_aux 53 1024 s m e l).
Proof.
  intros Hm He Hd. unfold binary_round_aux.
  destruct (shr_fexp_m m e l Hm) as [He1 Hm1].
  destruct (shr_fexp 53 1024 m e l) as [mrs1 e1]. simpl fst in *; simpl snd in *.
  set (m2 := round_nearest_even (shr_m mrs1) (loc_of_shr_record mrs1)).
  assert (Hk : 0 <= e1 - e) by (rewrite fexp64 in He1; lia).
  assert (Hm1' : 0 <= shr_m mrs1).
  { rewrite Hm1. apply Z.div_pos; [lia|]. apply Z.pow_pos_nonneg; lia. }
  assert (Hm2 : shr_m mrs1 <= m2 <= shr_m mrs1 + 1)
    by apply round_nearest_even_bounds.
  assert (Hd1 : Zdigits2 (shr_m mrs1) + (e1 - e) <= Z.max (Zdigits2 m) (e1 - e))
    by (rewrite Hm1; apply Zdigits2_shift; lia).
  assert (Hd2 : Zdigits2 m2 <= Zdigits2 (shr_m mrs1) + 1).
  { etransitivity; [apply (Zdigits2_le m2 (shr_m mrs1 + 1)); lia|].
    apply Zdigits2_succ; lia. }
  assert (Hm2' : 0 <= m2) by lia.
  destruct (shr_fexp_m m2 e1 loc_Exact Hm2') as [He2 Hm3].
  destruct (shr_fexp 53 1024 m2 e1 loc_Exact) as [mrs2 e2].
  simpl fst in *; simpl snd in *.
  assert (Hm3' : 0 <= shr_m mrs2).
  { rewrite Hm3. apply Z.div_pos; [lia|]. apply Z.pow_pos_nonneg.
    lia. rewrite fexp64 in He2. lia. }
  pose proof (Zdigits2_nonneg m) as Hn0.
  pose proof (Zdigits2_nonneg (shr_m mrs1)) as Hn1.
  rewrite fexp64 in He1, He2.
  destruct (shr_m mrs2) as [|p|p]; simpl; try lia; [reflexivity|].
  replace (e2 <=? 971) with true by (symmetry; apply Z.leb_le; lia).
  reflexivity.
Qed.

Lemma digits2_pos_iter_xO (d m : positive) :
  Zpos (digits2_pos (Pos.iter xO m d)) = Zpos (digits2_pos m) + Zpos d.
Proof.
  induction d as [|d IH] using Pos.peano_ind.
  - simpl. lia.
  - rewrite Pos.iter_succ. simpl digits2_pos. lia.
Qed.

End Rounding.

(** * Facts about the float operations of the program *)

Section FloatFacts.

(** Whatever is rounded, the result carries the given sign or is NaN. *)
Lemma binary_round_aux_sign (s : bool) (m e : Z) (l : location) :
  match binary_round_aux Float.prec Float.emax s m e l with
  | S754_zero s' | S754_finite s' _ _ | S754_infinity s' => s' = s
  | S754_nan => True
  end.
Proof.
  unfold binary_round_aux.
  destruct (shr_fexp Float.prec Float.emax m e l) as [mrs1 e1].
  destruct (shr_fexp Float.prec Float.emax _ e1 loc_Exact) as [mrs2 e2].
  destruct (shr_m mrs2); [reflexivity| |exact I].
  destruct (e2 <=? Float.emax - Float.prec); reflexivity.
Qed.

Lemma signed_finite_is_finite (s : bool) (f : Float.float) :
  signed_finite s f -> Float.is_finite f = true.
Proof. destruct f; simpl; intros H; [reflexivity|contradiction..|reflexivity]. Qed.

Lemma of_Z_finite (z : Z) :
  float_range z -> signed_finite (z <? 0) (Float.of_Z z).
Proof.
  unfold float_range. intros Hz.
  destruct z as [|p|p]; [reflexivity| |];
  unfold Float.of_Z, binary_normalize, binary_round;
  (assert (Hdig : Zpos (digits2_pos p) <= 1023);
   [ change (Zpos (digits2_pos p)) with (Zdigits2 (Zpos p));
     rewrite Zdigits2_log2 by lia;
     assert (Z.log2 (Zpos p) < 1023) by (apply Z.log2_lt_pow2; lia); lia |]);
  unfold shl_align;
  (destruct (fexp Float.prec Float.emax (Zpos (digits2_pos p) + 0) - 0)
     as [|d|d] eqn:Hf;
   [ apply binary_round_aux_finite; simpl Zdigits2; lia
   | apply binary_round_aux_finite; simpl Zdigits2; lia
   | apply binary_round_aux_finite; [lia| |];
     change (fexp Float.prec Float.emax (Zpos (digits2_pos p) + 0))
       with (Z.max (Zpos (digits2_pos p) + 0 - 53) (-1074)) in *;
     [lia | simpl Zdigits2; rewrite digits2_pos_iter_xO; lia] ]).
Qed.

(** [int * float] converts an integer below [2^1023] without error. *)
Lemma of_int_in_range (z : Z) :
  float_range z -> Float.of_int z = Ok (Float.of_Z z).
Proof.
  intros Hz. unfold Float.of_int.
  pose proof (of_Z_finite z Hz) as H.
  destruct (Float.of_Z z); simpl in *; try contradiction; reflexivity.
Qed.

(** A result of the conversion is never negative for a non-negative
    integer. *)
Lemma of_int_nonneg (z : Z) (f : Float.float) :
  0 <= z -> Float.of_int z = Ok f -> Float.is_negative f = false.
Proof.
  intros Hz. unfold Float.of_int, Float.of_Z, binary_normalize.
  destruct z as [|p|p]; try lia.
  - simpl. intros H; injection H as <-. reflexivity.
  - unfold binary_round.
    destruct (shl_align p 0 _) as [mz ez].
    pose proof (binary_round_aux_sign false (Zpos mz) ez loc_Exact) as Hs.
    destruct (binary_round_aux Float.prec Float.emax false (Zpos mz) ez loc_Exact)
      as [s|s| |s m e]; simpl; intros H; inversion H; subst; reflexivity.
Qed.

(** [p / b] on integers: no error for a dividend below [2^1023]; the
    quotient is finite and has the sign of the exact quotient. *)
Lemma int_truediv_in_range (a b : Z) :
  b <> 0 -> float_range a ->
  exists q, Float.int_truediv a b = Ok q /\
            signed_finite (xorb (a <? 0) (b <? 0)) q.
Proof.
  unfold float_range. intros Hb Ha. unfold Float.int_truediv.
  destruct (b =? 0) eqn:Eb; [apply Z.eqb_eq in Eb; contradiction|].
  destruct (a =? 0) eqn:Ea; [eexists; split; [reflexivity|reflexivity]|].
  apply Z.eqb_neq in Ea.
  set (neg := xorb (a <? 0) (b <? 0)).
  set (k := Z.max 0 (Zdigits2 (Z.abs b) + 55 - Zdigits2 (Z.abs a))).
  assert (Hk : 0 <= k) by lia.
  assert (Hp : 0 < 2 ^ k) by (apply Z.pow_pos_nonneg; lia).
  pose proof (Z.div_eucl_eq (Z.shiftl (Z.abs a) k) (Z.abs b)) as Hdiv.
  assert (Hq : fst (Z.div_eucl (Z.shiftl (Z.abs a) k) (Z.abs b))
               = Z.shiftl (Z.abs a) k / Z.abs b) by reflexivity.
  destruct (Z.div_eucl (Z.shiftl (Z.abs a) k) (Z.abs b)) as [q r].
  simpl in Hq. clear Hdiv.
  rewrite Z.shiftl_mul_pow2 in Hq by lia.
  assert (Hn : 0 < Z.abs a * 2 ^ k) by nia.
  assert (Hq0 : 0 <= q) by (subst q; apply Z.div_pos; lia).
  assert (Hqle : q <= Z.abs a * 2 ^ k).
  { subst q. apply Z.div_le_upper_bound; [lia|]. nia. }
  assert (Hdq : Zdigits2 q - k <= 1023).
  { pose proof (Zdigits2_le q (Z.abs a * 2 ^ k) (conj Hq0 Hqle)) as Hle.
    rewrite (Zdigits2_log2 (Z.abs a * 2 ^ k)) in Hle by lia.
    rewrite Z.log2_mul_pow2 in Hle by lia.
    assert (Z.log2 (Z.abs a) < 1023) by (apply Z.log2_lt_pow2; lia).
    lia. }
  pose proof (binary_round_aux_finite neg q (- k) (new_location (Z.abs b) r)
                Hq0 ltac:(lia) ltac:(lia)) as Hfin.
  change Float.prec with 53. change Float.emax with 1024.
  destruct (binary_round_aux 53 1024 neg q (- k) (new_location (Z.abs b) r))
    as [s|s| |s m e]; simpl in *; try contradiction;
    eexists; (split; [reflexivity|assumption]).
Qed.

(** A quotient that is returned is never negative for non-negative
    operands. *)
Lemma int_truediv_nonneg (a b : Z) (q : Float.float) :
  0 <= a -> 0 < b -> Float.int_truediv a b = Ok q ->
  Float.is_negative q = false.
Proof.
  intros Ha Hb. unfold Float.int_truediv.
  destruct (b =? 0); [discriminate|].
  replace (a <? 0) with false by (symmetry; apply Z.ltb_ge; lia).
  replace (b <? 0) with false by (symmetry; apply Z.ltb_ge; lia).
  simpl xorb.
  destruct (a =? 0); [intros H; injection H as <-; reflexivity|].
  destruct (Z.div_eucl _ _) as [q0 r0].
  match goal with |- context [binary_round_aux ?p ?x false ?m ?e ?l] =>
    pose proof (binary_round_aux_sign false m e l) as Hs;
    destruct (binary_round_aux p x false m e l) as [s|s| |s m' e'] end;
    simpl; intros H; inversion H; subst; reflexivity.
Qed.

Lemma int_truediv_zero (b : Z) :
  0 < b -> Float.int_truediv 0 b = Ok Float.zero.
Proof.
  intros Hb. unfold Float.int_truediv.
  replace (b =? 0) with false by (symmetry; apply Z.eqb_neq; lia).
  replace (b <? 0) with false by (symmetry; apply Z.ltb_ge; lia).
  reflexivity.
Qed.

(** The product of two floats that are not negative is not negative. *)
Lemma mul_nonneg (x y : Float.float) :
  Float.is_negative x = false -> Float.is_negative y = false ->
  Float.is_negative (Float.mul x y) = false.
Proof.
  unfold Float.mul.
  destruct x as [sx|sx| |sx mx ex], y as [sy|sy| |sy my ey];
    try (destruct sx); try (destruct sy); simpl; try discriminate;
    try reflexivity; intros _ _.
  pose proof (binary_round_aux_sign false (Zpos (mx * my)) (ex + ey) loc_Exact) as Hs.
  unfold SFmul.
  simpl xorb.
  destruct (binary_round_aux Float.prec Float.emax false (Zpos (mx * my)) (ex + ey) loc_Exact)
    as [s|s| |s m e]; subst; reflexivity.
Qed.

Lemma mul_zero_l (x y : Float.float) :
  Float.is_zero x = true -> Float.is_finite y = true ->
  Float.is_zero (Float.mul x y) = true.
Proof. destruct x, y; simpl; intros; try discriminate; reflexivity. Qed.

Lemma mul_zero_r (x y : Float.float) :
  Float.is_finite x = true -> Float.is_zero y = true ->
  Float.is_zero (Float.mul x y) = true.
Proof. destruct x, y; simpl; intros; try discriminate; reflexivity. Qed.

End FloatFacts.

(** * Calendar arithmetic *)

Section Calendar.

Lemma Timestamp_eqb_eq (a b : Timestamp) : Timestamp_eqb a b = true <-> a = b.
Proof.
  destruct a as [ya ma], b as [yb mb]. unfold Timestamp_eqb. simpl.
  rewrite andb_true_iff, !Z.eqb_eq. split.
  - intros [-> ->]. reflexivity.
  - intros H. injection H as -> ->. auto.
Qed.

(** The timestamp of an ordinal advances by [next_month] when the
    ordinal advances by one. *)
Lemma next_month_ordinal (o : Z) :
  next_month {| year := 1970 + o / 12; month := o mod 12 + 1 |}
  = {| year := 1970 + (o + 1) / 12; month := (o + 1) mod 12 + 1 |}.
Proof.
  unfold next_month. cbn [year month].
  destruct (o mod 12 + 1 + 1 =? 13) eqn:E;
    [apply Z.eqb_eq in E | apply Z.eqb_neq in E];
    f_equal; Z.div_mod_to_equations; lia.
Qed.

Lemma months_after_ordinal (y m : Z) (j : nat) :
  1 <= m <= 12 ->
  let o := (y - 1970) * 12 + (m - 1) + Z.of_nat j in
  months_after j {| year := y; month := m |}
  = {| year := 1970 + o / 12; month := o mod 12 + 1 |}.
Proof.
  intros Hm. induction j as [|j IH].
  - cbn [months_after Nat.iter Z.of_nat nat_rect].
    f_equal; Z.div_mod_to_equations; lia.
  - unfold months_after in *. simpl Nat.iter. rewrite IH.
    rewrite next_month_ordinal. cbv zeta.
    replace ((y - 1970) * 12 + (m - 1) + Z.of_nat (S j))
      with ((y - 1970) * 12 + (m - 1) + Z.of_nat j + 1) by lia.
    reflexivity.
Qed.

(** Inside the representable range, the timestamp of the [j]-th period
    after the start is the start moved [j] calendar months on. *)
Lemma to_timestamp_months_after (y m : Z) (n j : nat) :
  in_range y m n -> (j < n)%nat ->
  exists per, Period_parse y m = Ok per /\
    to_timestamp (Period_add per (Z.of_nat j))
    = Ok (months_after j {| year := y; month := m |}).
Proof.
  intros (Hm & Hlo & Hhi) Hj.
  exists {| ordinal := (y - 1970) * 12 + (m - 1) |}. split.
  - unfold Period_parse.
    replace ((1 <=? m) && (m <=? 12)) with true; [reflexivity|].
    symmetry. apply andb_true_iff. split; apply Z.leb_le; lia.
  - unfold to_timestamp, Period_add. simpl ordinal.
    replace ((ordinal_min <=? _) && (_ <=? ordinal_max)) with true.
    + rewrite months_after_ordinal by assumption. reflexivity.
    + symmetry. apply andb_true_iff. split; apply Z.leb_le; lia.
Qed.

End Calendar.

(** * [monthly_new] *)

Section MonthlyNew.

Variables (hh y m : Z) (avg : Float.float).

Lemma monthly_new_loop_length (ramp : list Z) : forall i rows,
  monthly_new_loop hh y m avg i ramp = Ok rows ->
  List.length rows = List.length ramp.
Proof.
  induction ramp as [|p rest IH]; intros i rows; simpl.
  - intros H; injection H as <-. reflexivity.
  - destruct (Period_parse y m) as [per|]; simpl; [|discriminate].
    destruct (to_timestamp _) as [ts|]; simpl; [|discriminate].
    destruct (new_volume hh avg p) as [v|]; simpl; [|discriminate].
    destruct (monthly_new_loop hh y m avg (i + 1) rest) as [out|] eqn:E;
      simpl; [|discriminate].
    intros H; injection H as <-. simpl. f_equal. eapply IH, E.
Qed.

(** The record at index [j] belongs to [ramp[j]] and to the period
    [j] months after index 0. *)
Lemma monthly_new_loop_nth (ramp : list Z) : forall i rows j p,
  monthly_new_loop hh y m avg i ramp = Ok rows ->
  nth_error ramp j = Some p ->
  exists per ts v,
    Period_parse y m = Ok per /\
    to_timestamp (Period_add per (i + Z.of_nat j)) = Ok ts /\
    new_volume hh avg p = Ok v /\
    nth_error rows j = Some {| ym := ts; volume := v |}.
Proof.
  induction ramp as [|p0 rest IH]; intros i rows j p; simpl.
  - destruct j; discriminate.
  - destruct (Period_parse y m) as [per|] eqn:Ep; simpl; [|discriminate].
    destruct (to_timestamp _) as [ts|] eqn:Et; simpl; [|discriminate].
    destruct (new_volume hh avg p0) as [v|] eqn:Ev; simpl; [|discriminate].
    destruct (monthly_new_loop hh y m avg (i + 1) rest) as [out|] eqn:E;
      simpl; [|discriminate].
    intros H; injection H as <-.
    destruct j as [|j]; cbn [nth_error].
    + intros H; injection H as <-.
      exists per, ts, v. rewrite Z.add_0_r. auto.
    + intros Hj.
      destruct (IH _ _ _ _ E Hj) as (per' & ts' & v' & H1 & H2 & H3 & H4).
      exists per', ts', v'. repeat split; try assumption.
      replace (i + Z.of_nat (S j)) with (i + 1 + Z.of_nat j) by lia.
      assumption.
Qed.

(** The loop returns when every step does. *)
Lemma monthly_new_loop_ok (per : Period) (ramp : list Z) : forall i,
  Period_parse y m = Ok per ->
  (forall j, (j < List.length ramp)%nat ->
     is_ok (to_timestamp (Period_add per (i + Z.of_nat j))) = true) ->
  Forall (fun p => is_ok (new_volume hh avg p) = true) ramp ->
  exists rows, monthly_new_loop hh y m avg i ramp = Ok rows.
Proof.
  induction ramp as [|p rest IH]; intros i Hp Ht Hv; simpl.
  - eexists; reflexivity.
  - rewrite Hp. simpl.
    pose proof (Ht 0%nat ltac:(simpl; lia)) as H0.
    rewrite Z.add_0_r in H0.
    destruct (to_timestamp (Period_add per i)) as [ts|]; [|discriminate].
    inversion Hv as [|? ? Hv0 Hv']; subst.
    destruct (new_volume hh avg p) as [v|]; [|discriminate].
    destruct (IH (i + 1) Hp) as [out Hout]; [|assumption|].
    + intros j Hj. specialize (Ht (S j) ltac:(simpl; lia)).
      replace (i + 1 + Z.of_nat j) with (i + Z.of_nat (S j)) by lia.
      assumption.
    + simpl. rewrite Hout. simpl. eexists; reflexivity.
Qed.

End MonthlyNew.

Lemma new_volume_in_range (hh p : Z) (avg : Float.float) :
  float_range hh -> float_range p ->
  exists q, Float.int_truediv p 100 = Ok q /\
    signed_finite (p <? 0) q /\
    new_volume hh avg p = Ok (Float.mul (Float.mul (Float.of_Z hh) avg) q).
Proof.
  intros Hh Hp.
  destruct (int_truediv_in_range p 100 ltac:(lia) Hp) as (q & Hq & Hs).
  exists q. split; [assumption|]. split.
  - rewrite xorb_false_r in Hs. exact Hs.
  - unfold new_volume. rewrite of_int_in_range by assumption. simpl.
    rewrite Hq. reflexivity.
Qed.

(** A record whose unit count and start period convert, within the
    ranges of binary64 and of [Timestamp], is projected on every index
    of the ramp. *)
Lemma project_valid (avg : Float.float) (ramp : list Z) (r : site) (hh y m : Z) :
  py_int (sedaesu r) = Ok hh ->
  parse_start (py_str (ipju r)) = Ok (y, m) ->
  float_range hh -> in_range y m (List.length ramp) -> Forall float_range ramp ->
  exists rows,
    project avg ramp r = Ok rows /\
    List.length rows = List.length ramp /\
    forall j p, nth_error ramp j = Some p ->
      exists q, Float.int_truediv p 100 = Ok q /\
        signed_finite (p <? 0) q /\
        nth_error rows j
        = Some {| ym := months_after j {| year := y; month := m |};
                  volume := Float.mul (Float.mul (Float.of_Z hh) avg) q |}.
Proof.
  intros Hu Hs Hh Hr Hramp.
  unfold project, monthly_new. rewrite Hu, Hs. simpl.
  assert (Hper : exists per, Period_parse y m = Ok per).
  { destruct Hr as (Hm & _). unfold Period_parse.
    replace ((1 <=? m) && (m <=? 12)) with true; [eexists; reflexivity|].
    symmetry. apply andb_true_iff. split; apply Z.leb_le; lia. }
  destruct Hper as [per Hper].
  destruct (monthly_new_loop_ok hh y m avg per ramp 0 Hper) as [rows Hrows].
  - intros j Hj.
    destruct (to_timestamp_months_after y m _ j Hr Hj) as (per' & Hp' & Ht).
    rewrite Hper in Hp'. injection Hp' as <-.
    simpl. rewrite Ht. reflexivity.
  - eapply Forall_impl; [|exact Hramp]. intros p Hp.
    destruct (new_volume_in_range hh p avg Hh Hp) as (q & _ & _ & Hv).
    rewrite Hv. reflexivity.
  - exists rows. split; [assumption|].
    split; [eapply monthly_new_loop_length; eassumption|].
    intros j p Hj.
    destruct (monthly_new_loop_nth hh y m avg ramp 0 rows j p Hrows Hj)
      as (per' & ts & v & Hp' & Ht & Hv & Hn).
    assert (Hlt : (j < List.length ramp)%nat)
      by (apply nth_error_Some; rewrite Hj; discriminate).
    destruct (to_timestamp_months_after y m _ j Hr Hlt) as (per'' & Hp'' & Ht').
    rewrite Hp' in Hp''. injection Hp'' as <-.
    simpl in Ht. rewrite Ht' in Ht. injection Ht as <-.
    assert (Hpr : float_range p).
    { rewrite Forall_forall in Hramp. apply Hramp.
      eapply nth_error_In; eassumption. }
    destruct (new_volume_in_range hh p avg Hh Hpr) as (q & Hq & Hsq & Hv').
    rewrite Hv in Hv'. injection Hv' as ->.
    exists q. auto.
Qed.

(** * The list [calc] *)

Section Calc.

Variables (avg : Float.float) (ramp : list Z).

Lemma project_length (r : site) (rows : DataFrame) :
  project avg ramp r = Ok rows -> List.length rows = List.length ramp.
Proof.
  unfold project, monthly_new.
  destruct (py_int (sedaesu r)) as [hh|]; simpl; [|discriminate].
  destruct (parse_start _) as [[y m]|]; simpl; [|discriminate].
  apply monthly_new_loop_length.
Qed.

Lemma malformed_project (r : site) :
  malformed r = true -> is_ok (project avg ramp r) = false.
Proof.
  unfold malformed, project, monthly_new. intros H.
  destruct (py_int (sedaesu r)) as [hh|]; simpl in *; [|reflexivity].
  destruct (parse_start _) as [[y m]|]; simpl in *; [discriminate|reflexivity].
Qed.

Lemma dropna_app (a b : list site) : dropna (a ++ b) = dropna a ++ dropna b.
Proof. apply filter_app. Qed.

Lemma calc_loop_app (a b : list site) :
  calc_loop avg ramp (a ++ b) = calc_loop avg ramp a ++ calc_loop avg ramp b.
Proof.
  induction a as [|r a IH]; simpl; [reflexivity|].
  destruct (project avg ramp r); simpl; rewrite IH; reflexivity.
Qed.

Lemma calc_app (a b : list site) :
  calc avg ramp (a ++ b) = calc avg ramp a ++ calc avg ramp b.
Proof. unfold calc. rewrite dropna_app. apply calc_loop_app. Qed.

Lemma calc_cons (r : site) (l : list site) :
  calc avg ramp (r :: l) = calc avg ramp [r] ++ calc avg ramp l.
Proof. apply (calc_app [r] l). Qed.

(** A record with a missing value, or whose projection raises, adds
    nothing to [calc]. *)
Lemma calc_single_skipped (r : site) :
  has_na r = true \/ is_ok (project avg ramp r) = false ->
  calc avg ramp [r] = [].
Proof.
  unfold calc, dropna. simpl. intros [H|H].
  - rewrite H. reflexivity.
  - destruct (has_na r); simpl; [reflexivity|].
    destruct (project avg ramp r); [discriminate|reflexivity].
Qed.

Lemma calc_single_kept (r : site) (df : DataFrame) :
  has_na r = false -> project avg ramp r = Ok df ->
  calc avg ramp [r] = [df].
Proof.
  intros Hna Hp. unfold calc, dropna. simpl.
  rewrite Hna. simpl. rewrite Hp. reflexivity.
Qed.

Lemma calc_In (r : site) (df : DataFrame) (l : list site) :
  In r l -> has_na r = false -> project avg ramp r = Ok df ->
  In df (calc avg ramp l).
Proof.
  induction l as [|r0 l IH]; simpl; [contradiction|].
  intros [->|Hin] Hna Hp; rewrite calc_cons; apply in_or_app.
  - left. rewrite (calc_single_kept r df) by assumption. left; reflexivity.
  - right. auto.
Qed.

(** With a non-empty ramp no frame of [calc] is empty. *)
Lemma calc_frames_nonempty (l : list site) :
  ramp <> [] -> Forall (fun df => df <> []) (calc avg ramp l).
Proof.
  intros Hr. unfold calc.
  induction (dropna l) as [|r rest IH]; simpl; [constructor|].
  destruct (project avg ramp r) as [df|] eqn:E; [|assumption].
  constructor; [|assumption].
  apply project_length in E. intros ->. simpl in E.
  destruct ramp; [contradiction|discriminate].
Qed.

End Calc.

(** * Grouping *)

Section Grouping.

Lemma Timestamp_ltb_irrefl (a : Timestamp) : Timestamp_ltb a a = false.
Proof.
  unfold Timestamp_ltb. rewrite !Z.ltb_irrefl, andb_false_r. reflexivity.
Qed.

Lemma Timestamp_lt_trans (a b c : Timestamp) :
  Timestamp_lt a b -> Timestamp_lt b c -> Timestamp_lt a c.
Proof.
  unfold Timestamp_lt, Timestamp_ltb.
  rewrite !orb_true_iff, !andb_true_iff, !Z.ltb_lt, !Z.eqb_eq. lia.
Qed.

(** Chronological order is total: two timestamps that are not equal
    are ordered one way or the other. *)
Lemma Timestamp_trichotomy (a b : Timestamp) :
  Timestamp_ltb a b = false -> Timestamp_eqb a b = false ->
  Timestamp_lt b a.
Proof.
  unfold Timestamp_lt, Timestamp_ltb, Timestamp_eqb.
  rewrite !orb_false_iff, !andb_false_iff, orb_true_iff, andb_true_iff.
  rewrite !Z.ltb_lt, !Z.ltb_ge, !Z.eqb_eq, !Z.eqb_neq. lia.
Qed.

Lemma insert_key_In (k x : Timestamp) (ks : list Timestamp) :
  In x (insert_key k ks) <-> x = k \/ In x ks.
Proof.
  induction ks as [|h t IH]; simpl.
  - intuition.
  - destruct (Timestamp_ltb k h); simpl; [intuition|].
    destruct (Timestamp_eqb k h) eqn:E; simpl.
    + apply Timestamp_eqb_eq in E. subst. intuition.
    + rewrite IH. intuition.
Qed.

Lemma insert_key_sorted (k : Timestamp) (ks : list Timestamp) :
  StronglySorted Timestamp_lt ks ->
  StronglySorted Timestamp_lt (insert_key k ks).
Proof.
  induction 1 as [|h t Hs IH Hall]; simpl.
  - constructor; constructor.
  - destruct (Timestamp_ltb k h) eqn:Elt.
    + constructor; [constructor; assumption|].
      constructor; [exact Elt|].
      eapply Forall_impl; [|exact Hall].
      intros x Hx. eapply Timestamp_lt_trans; [exact Elt|exact Hx].
    + destruct (Timestamp_eqb k h) eqn:Eeq.
      * constructor; assumption.
      * constructor; [assumption|].
        apply Forall_forall. intros x Hx.
        apply insert_key_In in Hx. destruct Hx as [->|Hx].
        -- apply Timestamp_trichotomy; assumption.
        -- rewrite Forall_forall in Hall. auto.
Qed.

Lemma group_keys_sorted (df : DataFrame) :
  StronglySorted Timestamp_lt (group_keys df).
Proof.
  unfold group_keys. induction (map ym df) as [|k ks IH]; simpl.
  - constructor.
  - apply insert_key_sorted, IH.
Qed.

Lemma group_keys_In (df : DataFrame) (k : Timestamp) :
  In k (group_keys df) <-> In k (map ym df).
Proof.
  unfold group_keys. induction (map ym df) as [|h t IH]; simpl.
  - reflexivity.
  - rewrite insert_key_In, IH. intuition.
Qed.

(** A strictly ascending list is determined by its elements. *)
Lemma sorted_ext (l1 : list Timestamp) : forall l2,
  StronglySorted Timestamp_lt l1 -> StronglySorted Timestamp_lt l2 ->
  (forall x, In x l1 <-> In x l2) -> l1 = l2.
Proof.
  assert (Hirr : forall a, ~ Timestamp_lt a a)
    by (intros a H; unfold Timestamp_lt in H;
        rewrite Timestamp_ltb_irrefl in H; discriminate).
  assert (Hasym : forall a b, Timestamp_lt a b -> Timestamp_lt b a -> False)
    by (intros a b H1 H2; apply (Hirr a); eapply Timestamp_lt_trans; eassumption).
  induction l1 as [|a l1 IH]; intros l2 H1 H2 Hin.
  - destruct l2 as [|b l2]; [reflexivity|].
    exfalso. apply (Hin b). left; reflexivity.
  - destruct l2 as [|b l2]; [exfalso; apply (Hin a); left; reflexivity|].
    inversion H1 as [|? ? Hs1 Ha]; subst.
    inversion H2 as [|? ? Hs2 Hb]; subst.
    rewrite Forall_forall in Ha, Hb.
    assert (a = b).
    { destruct (proj1 (Hin a) (or_introl eq_refl)) as [->|Hab]; [reflexivity|].
      destruct (proj2 (Hin b) (or_introl eq_refl)) as [->|Hba]; [reflexivity|].
      exfalso. eapply Hasym; [apply Ha, Hba | apply Hb, Hab]. }
    subst b. f_equal. apply IH; try assumption.
    intros x. split; intros Hx.
    + destruct (proj1 (Hin x) (or_intror Hx)) as [->|]; [|assumption].
      exfalso. apply (Hirr x). apply Ha, Hx.
    + destruct (proj2 (Hin x) (or_intror Hx)) as [->|]; [|assumption].
      exfalso. apply (Hirr x). apply Hb, Hx.
Qed.

Lemma group_keys_perm (df df' : DataFrame) :
  Permutation df df' -> group_keys df = group_keys df'.
Proof.
  intros Hp. apply sorted_ext; try apply group_keys_sorted.
  intros x. rewrite !group_keys_In.
  split; apply Permutation_in; [|symmetry]; apply Permutation_map, Hp.
Qed.

Lemma filter_perm {A : Type} (f : A -> bool) (l l' : list A) :
  Permutation l l' -> Permutation (filter f l) (filter f l').
Proof.
  induction 1 as [|x l l' _ IH|x y l|l l' l'' _ IH1 _ IH2]; simpl.
  - constructor.
  - destruct (f x); [constructor|]; assumption.
  - destruct (f x), (f y); try reflexivity. constructor.
  - etransitivity; eassumption.
Qed.

Lemma group_values_perm (k : Timestamp) (df df' : DataFrame) :
  Permutation df df' -> Permutation (group_values k df) (group_values k df').
Proof.
  intros Hp. unfold group_values. apply Permutation_map, filter_perm, Hp.
Qed.

Lemma concat_perm {A : Type} (l l' : list (list A)) :
  Permutation l l' -> Permutation (List.concat l) (List.concat l').
Proof.
  induction 1 as [|x l l' _ IH|x y l|l l' l'' _ IH1 _ IH2]; simpl.
  - constructor.
  - apply Permutation_app_head, IH.
  - rewrite !app_assoc. apply Permutation_app_tail, Permutation_app_comm.
  - etransitivity; eassumption.
Qed.

Lemma calc_perm (avg : Float.float) (ramp : list Z) (l l' : list site) :
  Permutation l l' -> Permutation (calc avg ramp l) (calc avg ramp l').
Proof.
  induction 1 as [|x l l' _ IH|x y l|l l' l'' _ IH1 _ IH2].
  - constructor.
  - rewrite (calc_cons avg ramp x l), (calc_cons avg ramp x l').
    apply Permutation_app_head, IH.
  - rewrite (calc_cons avg ramp y (x :: l)), (calc_cons avg ramp x l),
      (calc_cons avg ramp x (y :: l)), (calc_cons avg ramp y l).
    rewrite !app_assoc. apply Permutation_app_tail, Permutation_app_comm.
  - etransitivity; eassumption.
Qed.

End Grouping.

(** * The ramp parameter *)

Lemma ints_of_length (l : list string) (zs : list Z) :
  ints_of l = Ok zs -> List.length zs = List.length l.
Proof.
  revert zs. induction l as [|s t IH]; intros zs; simpl.
  - intros H; injection H as <-. reflexivity.
  - destruct (Py.int_of_string s); simpl; [|discriminate].
    destruct (ints_of t) as [zs'|]; simpl; [|discriminate].
    intros H; injection H as <-. simpl. f_equal. apply IH. reflexivity.
Qed.

Lemma split_nonempty (sep : ascii) (s : string) : Py.split sep s <> [].
Proof.
  destruct s as [|c r]; simpl; [discriminate|].
  destruct (Ascii.eqb c sep); [discriminate|].
  destruct (Py.split sep r); discriminate.
Qed.

(** Whatever text the analyst enters, a ramp that parses has at least
    one entry. *)
Lemma parse_ramp_nonempty (s : string) (ramp : list Z) :
  parse_ramp s = Ok ramp -> ramp <> [].
Proof.
  unfold parse_ramp. intros H Hnil. subst ramp.
  apply ints_of_length in H. simpl in H.
  pose proof (split_nonempty ","%char s) as Hs.
  destruct (Py.split ","%char s); [contradiction|discriminate].
Qed.

Lemma default_ramp : parse_ramp default_ramp_text = Ok [30; 60; 85; 100].
Proof. reflexivity. Qed.

(** * The claims *)

(** C1. For a record whose unit count converts to a positive integer
    and whose start period converts to a year and a month (within the
    ranges of binary64 and of [Timestamp]), the projection returns, and
    its entry at every index [i] of the ramp has the volume
    [units * avg * (ramp[i] / 100)], computed in binary64 in this order.
    For 500 units, consumption 30.0 and the ramp 30, 60, 85, 100 from
    2026-03 the four volumes are exactly 4500, 9000, 12750 and 15000, for
    2026-03 to 2026-06. *)
Theorem C1_volume_per_ramp_index :
  (forall (avg : Float.float) (ramp : list Z) (r : site) (hh y m : Z),
      py_int (sedaesu r) = Ok hh -> 0 < hh -> float_range hh ->
      parse_start (py_str (ipju r)) = Ok (y, m) ->
      in_range y m (List.length ramp) ->
      Forall float_range ramp ->
      exists rows h,
        project avg ramp r = Ok rows /\
        Float.of_int hh = Ok h /\
        forall i p, nth_error ramp i = Some p ->
          exists q, Float.int_truediv p 100 = Ok q /\
            option_map volume (nth_error rows i)
            = Some (Float.mul (Float.mul h avg) q))
  /\
  project (Float.of_Z 30) [30; 60; 85; 100] example_site
  = Ok [ {| ym := {| year := 2026; month := 3 |}; volume := Float.of_Z 4500 |};
         {| ym := {| year := 2026; month := 4 |}; volume := Float.of_Z 9000 |};
         {| ym := {| year := 2026; month := 5 |}; volume := Float.of_Z 12750 |};
         {| ym := {| year := 2026; month := 6 |}; volume := Float.of_Z 15000 |} ].
Proof.
  split; [|vm_compute; reflexivity].
  intros avg ramp r hh y m Hu _ Hh Hs Hr Hramp.
  destruct (project_valid avg ramp r hh y m Hu Hs Hh Hr Hramp)
    as (rows & Hrows & _ & Hnth).
  exists rows, (Float.of_Z hh).
  split; [assumption|]. split; [apply of_int_in_range; assumption|].
  intros i p Hi. destruct (Hnth i p Hi) as (q & Hq & _ & Hrow).
  exists q. split; [assumption|]. rewrite Hrow. reflexivity.
Qed.

Lemma C1_witness :
  exists rows h,
    project default_hh_avg [30; 60; 85; 100] example_site = Ok rows /\
    Float.of_int 500 = Ok h /\
    forall i p, nth_error [30; 60; 85; 100] i = Some p ->
      exists q, Float.int_truediv p 100 = Ok q /\
        option_map volume (nth_error rows i)
        = Some (Float.mul (Float.mul h default_hh_avg) q).
Proof.
  apply (proj1 C1_volume_per_ramp_index default_hh_avg [30; 60; 85; 100]
           example_site 500 2026 3).
  - reflexivity.
  - lia.
  - reflexivity.
  - reflexivity.
  - unfold in_range, ordinal_min, ordinal_max. simpl. lia.
  - repeat constructor.
Defined.

(** C2. For such a record the projection has exactly one entry per
    index of the ramp and none beyond: its length is the length of the
    ramp, whatever the unit count, the consumption and the start. *)
Theorem C2_one_entry_per_ramp_index
    (avg : Float.float) (ramp : list Z) (r : site) (hh y m : Z) :
  py_int (sedaesu r) = Ok hh -> 0 < hh -> float_range hh ->
  parse_start (py_str (ipju r)) = Ok (y, m) ->
  in_range y m (List.length ramp) ->
  Forall float_range ramp ->
  exists rows,
    project avg ramp r = Ok rows /\
    List.length rows = List.length ramp /\
    (forall i, (i < List.length ramp)%nat -> nth_error rows i <> None) /\
    (forall i, (List.length ramp <= i)%nat -> nth_error rows i = None).
Proof.
  intros Hu _ Hh Hs Hr Hramp.
  destruct (project_valid avg ramp r hh y m Hu Hs Hh Hr Hramp)
    as (rows & Hrows & Hlen & _).
  exists rows. repeat split; try assumption.
  - intros i Hi. apply nth_error_Some. lia.
  - intros i Hi. apply nth_error_None. lia.
Qed.

Lemma C2_witness :
  exists rows,
    project default_hh_avg [30; 60; 85; 100] example_site = Ok rows /\
    List.length rows = 4%nat /\
    (forall i, (i < 4)%nat -> nth_error rows i <> None) /\
    (forall i, (4 <= i)%nat -> nth_error rows i = None).
Proof.
  apply (C2_one_entry_per_ramp_index default_hh_avg [30; 60; 85; 100]
           example_site 500 2026 3).
  - reflexivity.
  - lia.
  - reflexivity.
  - reflexivity.
  - unfold in_range, ordinal_min, ordinal_max. simpl. lia.
  - repeat constructor.
Defined.

(** C3. For such a record the entry at index [i] carries the period
    [i] calendar months after the start period, where the month after
    December of year Y is January of year Y+1; consecutive entries are
    one calendar month apart. *)
Theorem C3_consecutive_months
    (avg : Float.float) (ramp : list Z) (r : site) (hh y m : Z) :
  py_int (sedaesu r) = Ok hh -> 0 < hh -> float_range hh ->
  parse_start (py_str (ipju r)) = Ok (y, m) ->
  in_range y m (List.length ramp) ->
  Forall float_range ramp ->
  exists rows,
    project avg ramp r = Ok rows /\
    (forall i, (i < List.length ramp)%nat ->
       nth_error (map ym rows) i
       = Some (months_after i {| year := y; month := m |})) /\
    (forall i t, nth_error (map ym rows) i = Some t ->
       (S i < List.length ramp)%nat ->
       nth_error (map ym rows) (S i) = Some (next_month t)).
Proof.
  intros Hu _ Hh Hs Hr Hramp.
  destruct (project_valid avg ramp r hh y m Hu Hs Hh Hr Hramp)
    as (rows & Hrows & Hlen & Hnth).
  assert (Hym : forall i, (i < List.length ramp)%nat ->
            nth_error (map ym rows) i
            = Some (months_after i {| year := y; month := m |})).
  { intros i Hi.
    destruct (nth_error ramp i) as [p|] eqn:Ep;
      [|apply nth_error_None in Ep; lia].
    destruct (Hnth i p Ep) as (q & _ & _ & Hrow).
    rewrite nth_error_map, Hrow. reflexivity. }
  exists rows. split; [assumption|]. split; [exact Hym|].
  intros i t Hi Hlt.
  rewrite Hym in Hi by lia. injection Hi as <-.
  rewrite Hym by lia. reflexivity.
Qed.

Lemma C3_witness :
  exists rows,
    project default_hh_avg [30; 60; 85; 100]
      {| danji := VStr "B"; sedaesu := VInt 500; ipju := VStr "2026-11" |}
    = Ok rows /\
    (forall i, (i < 4)%nat ->
       nth_error (map ym rows) i
       = Some (months_after i {| year := 2026; month := 11 |})) /\
    (forall i t, nth_error (map ym rows) i = Some t -> (S i < 4)%nat ->
       nth_error (map ym rows) (S i) = Some (next_month t)).
Proof.
  apply (C3_consecutive_months default_hh_avg [30; 60; 85; 100]
           {| danji := VStr "B"; sedaesu := VInt 500; ipju := VStr "2026-11" |}
           500 2026 11).
  - reflexivity.
  - lia.
  - reflexivity.
  - reflexivity.
  - unfold in_range, ordinal_min, ordinal_max. simpl. lia.
  - repeat constructor.
Defined.

Lemma aggregate_not_uncaught (reduce : list Float.float -> Float.float)
    (frames : list DataFrame) :
  Forall (fun df => df <> []) frames ->
  forall e, aggregate reduce frames <> Uncaught e.
Proof.
  intros Hall e. unfold aggregate.
  destruct frames as [|df rest]; [discriminate|].
  inversion Hall as [|? ? Hdf _]; subst.
  simpl List.concat.
  destruct df as [|row df]; [contradiction|]. simpl. discriminate.
Qed.

Lemma calc_skip (avg : Float.float) (ramp : list Z)
    (before after : list site) (r : site) :
  has_na r = true \/ is_ok (project avg ramp r) = false ->
  calc avg ramp (before ++ r :: after) = calc avg ramp (before ++ after).
Proof.
  intros H. rewrite !calc_app, (calc_cons avg ramp r after).
  rewrite (calc_single_skipped avg ramp r H). reflexivity.
Qed.

(** C4. A record whose projection raises, as it does when the unit
    count or the start period does not convert, adds nothing to [calc]:
    the frames and the grouped sum are those of the other records alone,
    each record that converts still has its frame in [calc], and no
    exception leaves the block.  A start period "bad" and a unit count
    "abc" are such records, whatever their other fields. *)
Theorem C4_malformed_site_isolated :
  (forall (reduce : list Float.float -> Float.float) (avg : Float.float)
          (ramp : list Z) (before after : list site) (bad : site),
      ramp <> [] -> is_ok (project avg ramp bad) = false ->
      calc avg ramp [bad] = [] /\
      calc avg ramp (before ++ bad :: after) = calc avg ramp (before ++ after) /\
      new_df reduce avg ramp (before ++ bad :: after)
      = new_df reduce avg ramp (before ++ after) /\
      (forall e, new_df reduce avg ramp (before ++ bad :: after) <> Uncaught e) /\
      (forall s df, In s (before ++ after) -> has_na s = false ->
         project avg ramp s = Ok df ->
         In df (calc avg ramp (before ++ bad :: after))))
  /\ (forall (avg : Float.float) (ramp : list Z) (r : site),
        malformed r = true -> is_ok (project avg ramp r) = false)
  /\ (forall name units : cell,
        malformed {| danji := name; sedaesu := units; ipju := VStr "bad" |} = true)
  /\ (forall name start : cell,
        malformed {| danji := name; sedaesu := VStr "abc"; ipju := start |} = true).
Proof.
  split; [|split; [|split]].
  - intros reduce avg ramp before after bad Hramp Hbad.
    assert (Hskip : has_na bad = true \/ is_ok (project avg ramp bad) = false)
      by (right; assumption).
    assert (Heq : calc avg ramp (before ++ bad :: after)
                  = calc avg ramp (before ++ after))
      by (apply calc_skip; assumption).
    split; [apply calc_single_skipped; assumption|].
    split; [assumption|].
    split; [unfold new_df; rewrite Heq; reflexivity|].
    split.
    + intros e. unfold new_df.
      apply aggregate_not_uncaught, calc_frames_nonempty, Hramp.
    + intros s df Hin Hna Hp. rewrite Heq. eapply calc_In; eassumption.
  - intros avg ramp r. apply malformed_project.
  - intros name units. unfold malformed. simpl. apply orb_true_r.
  - intros name start. reflexivity.
Qed.

Lemma C4_witness :
  calc default_hh_avg [30; 60; 85; 100] [abc_site] = [] /\
  calc default_hh_avg [30; 60; 85; 100] ([example_site] ++ abc_site :: [earlier_site])
  = calc default_hh_avg [30; 60; 85; 100] ([example_site] ++ [earlier_site]) /\
  new_df sum_kahan default_hh_avg [30; 60; 85; 100]
    ([example_site] ++ abc_site :: [earlier_site])
  = new_df sum_kahan default_hh_avg [30; 60; 85; 100]
      ([example_site] ++ [earlier_site]) /\
  (forall e, new_df sum_kahan default_hh_avg [30; 60; 85; 100]
               ([example_site] ++ abc_site :: [earlier_site]) <> Uncaught e) /\
  (forall s df, In s ([example_site] ++ [earlier_site]) -> has_na s = false ->
     project default_hh_avg [30; 60; 85; 100] s = Ok df ->
     In df (calc default_hh_avg [30; 60; 85; 100]
              ([example_site] ++ abc_site :: [earlier_site]))).
Proof.
  apply (proj1 C4_malformed_site_isolated sum_kahan default_hh_avg
           [30; 60; 85; 100] [example_site] [earlier_site] abc_site).
  - discriminate.
  - reflexivity.
Defined.

(** C5, as stated, fails: the record with -5 units is not dropped. *)
Lemma C5_counterexample :
  ~ (forall (avg : Float.float) (ramp : list Z) (r : site) (hh : Z),
       py_int (sedaesu r) = Ok hh -> hh < 0 -> calc avg ramp [r] = []).
Proof.
  intros H.
  specialize (H default_hh_avg [30; 60; 85; 100] negative_site (-5)
                eq_refl ltac:(lia)).
  vm_compute in H. discriminate H.
Qed.

(** C5, amended. A record whose unit count converts to a negative
    integer is not dropped: like any other record that converts, it adds
    to [calc] one frame with one entry per index of the ramp, of volume
    [units * avg * (ramp[i] / 100)]. *)
Theorem C5_negative_units_projected
    (avg : Float.float) (ramp : list Z) (r : site) (hh y m : Z) :
  py_int (sedaesu r) = Ok hh -> hh < 0 -> float_range hh ->
  has_na r = false ->
  parse_start (py_str (ipju r)) = Ok (y, m) ->
  in_range y m (List.length ramp) ->
  Forall float_range ramp ->
  exists rows,
    calc avg ramp [r] = [rows] /\
    List.length rows = List.length ramp /\
    forall i p, nth_error ramp i = Some p ->
      exists q, Float.int_truediv p 100 = Ok q /\
        option_map volume (nth_error rows i)
        = Some (Float.mul (Float.mul (Float.of_Z hh) avg) q).
Proof.
  intros Hu _ Hh Hna Hs Hr Hramp.
  destruct (project_valid avg ramp r hh y m Hu Hs Hh Hr Hramp)
    as (rows & Hrows & Hlen & Hnth).
  exists rows. split; [apply calc_single_kept; assumption|].
  split; [assumption|].
  intros i p Hi. destruct (Hnth i p Hi) as (q & Hq & _ & Hrow).
  exists q. split; [assumption|]. rewrite Hrow. reflexivity.
Qed.

Lemma C5_witness :
  exists rows,
    calc default_hh_avg [30; 60; 85; 100] [negative_site] = [rows] /\
    List.length rows = 4%nat /\
    forall i p, nth_error [30; 60; 85; 100] i = Some p ->
      exists q, Float.int_truediv p 100 = Ok q /\
        option_map volume (nth_error rows i)
        = Some (Float.mul (Float.mul (Float.of_Z (-5)) default_hh_avg) q).
Proof.
  apply (C5_negative_units_projected default_hh_avg [30; 60; 85; 100]
           negative_site (-5) 2026 3).
  - reflexivity.
  - lia.
  - reflexivity.
  - reflexivity.
  - reflexivity.
  - unfold in_range, ordinal_min, ordinal_max. simpl. lia.
  - repeat constructor.
Defined.

(** C6, as stated, fails: every entry of the record with -5 units has
    a negative volume (-45.0 for the first). *)
Lemma C6_counterexample :
  exists rows,
    project default_hh_avg [30; 60; 85; 100] negative_site = Ok rows /\
    option_map volume (nth_error rows 0) = Some (Float.of_Z (-45)) /\
    Forall (fun row => Float.is_negative (volume row) = true) rows.
Proof.
  eexists. split; [vm_compute; reflexivity|].
  split; [reflexivity|]. repeat constructor.
Qed.

(** With an infinite consumption a ramp percentage of 0 gives NaN,
    not zero: [500 * inf * 0.0]. *)
Example zero_percent_of_infinite_consumption :
  project (S754_infinity false) [0] example_site
  = Ok [ {| ym := {| year := 2026; month := 3 |}; volume := S754_nan |} ].
Proof. reflexivity. Qed.

(** C6, amended. For every produced entry: the volume is not negative
    when the unit count, the consumption and the ramp percentage of the
    entry are not negative; and, whatever the signs, the entry of a ramp
    percentage 0 has a zero volume when the product [units * avg] is a
    finite float. *)
Theorem C6_volume_not_negative
    (avg : Float.float) (ramp : list Z) (r : site) (hh : Z) (rows : DataFrame)
    (i : nat) (p : Z) (row : row) :
  py_int (sedaesu r) = Ok hh ->
  project avg ramp r = Ok rows ->
  nth_error ramp i = Some p -> nth_error rows i = Some row ->
  (0 <= hh -> Float.is_negative avg = false -> 0 <= p ->
   Float.is_negative (volume row) = false) /\
  (p = 0 -> Float.is_finite (Float.mul (Float.of_Z hh) avg) = true ->
   Float.is_zero (volume row) = true).
Proof.
  intros Hu Hp Hi Hrow.
  unfold project, monthly_new in Hp. rewrite Hu in Hp. simpl in Hp.
  destruct (parse_start _) as [[y m]|]; simpl in Hp; [|discriminate].
  destruct (monthly_new_loop_nth hh y m avg ramp 0 rows i p Hp Hi)
    as (per & ts & v & _ & _ & Hv & Hn).
  rewrite Hrow in Hn. injection Hn as ->. simpl volume.
  unfold new_volume in Hv.
  destruct (Float.of_int hh) as [h|] eqn:Eh; simpl in Hv; [|discriminate].
  destruct (Float.int_truediv p 100) as [q|] eqn:Eq; simpl in Hv; [|discriminate].
  injection Hv as <-.
  split.
  - intros Hh Havg Hp0. apply mul_nonneg.
    + apply mul_nonneg; [exact (of_int_nonneg hh h Hh Eh)|assumption].
    + exact (int_truediv_nonneg p 100 q Hp0 ltac:(lia) Eq).
  - intros -> Hfin.
    rewrite int_truediv_zero in Eq by lia. injection Eq as <-.
    assert (h = Float.of_Z hh) as ->.
    { unfold Float.of_int in Eh.
      destruct (Float.is_inf (Float.of_Z hh)); congruence. }
    apply mul_zero_r; [assumption|reflexivity].
Qed.

Lemma C6_witness :
  Float.is_negative (Float.of_Z 0) = false /\
  Float.is_zero (Float.of_Z 0) = true.
Proof.
  destruct (C6_volume_not_negative default_hh_avg [0; 100] example_site 500
              [ {| ym := {| year := 2026; month := 3 |}; volume := Float.of_Z 0 |};
                {| ym := {| year := 2026; month := 4 |};
                   volume := Float.of_Z 15000 |} ]
              0%nat 0
              {| ym := {| year := 2026; month := 3 |}; volume := Float.of_Z 0 |}
              eq_refl eq_refl eq_refl eq_refl) as [Hsign Hzero].
  split.
  - apply Hsign; [lia|reflexivity|lia].
  - apply Hzero; reflexivity.
Defined.

(** C7, as stated, fails: with consumption 30.0 and the ramp [33],
    three records of 1, 1 and 4 units give the contributions 9.9, 9.9
    and 39.6 to 2026-03; summed in the order 1, 1, 4 the total is
    59.400000000000006, in the order 1, 4, 1 it is 59.4, under plain
    left-to-right addition and under compensated summation alike. *)
Lemma C7_counterexample :
  Permutation [unit_site 1; unit_site 1; unit_site 4]
              [unit_site 1; unit_site 4; unit_site 1] /\
  new_df sum_left default_hh_avg [33] [unit_site 1; unit_site 1; unit_site 4]
  <> new_df sum_left default_hh_avg [33] [unit_site 1; unit_site 4; unit_site 1] /\
  new_df sum_kahan default_hh_avg [33] [unit_site 1; unit_site 1; unit_site 4]
  <> new_df sum_kahan default_hh_avg [33] [unit_site 1; unit_site 4; unit_site 1].
Proof.
  split; [apply perm_skip, perm_swap|].
  split; intros H; vm_compute in H; discriminate H.
Qed.

Lemma new_df_computed (reduce : list Float.float -> Float.float)
    (avg : Float.float) (ramp : list Z) (sites : list site)
    (df : list (Timestamp * Float.float)) :
  new_df reduce avg ramp sites = Computed df ->
  df = map (fun k => (k, reduce (contributions avg ramp sites k)))
           (group_keys (List.concat (calc avg ramp sites))).
Proof.
  unfold new_df, aggregate, contributions.
  destruct (calc avg ramp sites) as [|f fs]; [discriminate|].
  destruct (List.concat (f :: fs)) as [|row rows] eqn:E; [discriminate|].
  intros H; injection H as <-. reflexivity.
Qed.

(** C7, amended. Permuting the records leaves the outcome of the same
    kind and the periods of the grouped sum the same, in the same order;
    each period receives the same contributions, possibly in another
    order, and its volume is the library's float sum of them in the order
    met.  The grouped sums are identical whenever these float sums agree
    period by period. *)
Theorem C7_permutation_same_periods_same_contributions
    (reduce : list Float.float -> Float.float) (avg : Float.float)
    (ramp : list Z) (sites sites' : list site) :
  Permutation sites sites' ->
  match new_df reduce avg ramp sites, new_df reduce avg ramp sites' with
  | Computed df, Computed df' =>
      map fst df = map fst df' /\
      df = map (fun k => (k, reduce (contributions avg ramp sites k)))
               (map fst df) /\
      df' = map (fun k => (k, reduce (contributions avg ramp sites' k)))
                (map fst df)
  | NotComputed, NotComputed => True
  | Uncaught e, Uncaught e' => e = e'
  | _, _ => False
  end /\
  (forall k, Permutation (contributions avg ramp sites k)
                         (contributions avg ramp sites' k)) /\
  ((forall k, reduce (contributions avg ramp sites k)
              = reduce (contributions avg ramp sites' k)) ->
   new_df reduce avg ramp sites = new_df reduce avg ramp sites').
Proof.
  intros Hperm.
  pose proof (calc_perm avg ramp sites sites' Hperm) as Hcalc.
  pose proof (concat_perm _ _ Hcalc) as Hcat.
  pose proof (group_keys_perm _ _ Hcat) as Hkeys.
  assert (Hcontrib : forall k, Permutation (contributions avg ramp sites k)
                                           (contributions avg ramp sites' k))
    by (intros k; apply group_values_perm, Hcat).
  assert (Hshape :
    new_df reduce avg ramp sites
    = match calc avg ramp sites with
      | [] => NotComputed
      | _ => match List.concat (calc avg ramp sites) with
             | [] => Uncaught KeyError
             | _ => Computed
                      (map (fun k => (k, reduce (contributions avg ramp sites k)))
                           (group_keys (List.concat (calc avg ramp sites))))
             end
      end).
  { unfold new_df, aggregate, contributions.
    destruct (calc avg ramp sites) as [|f fs]; [reflexivity|].
    destruct (List.concat (f :: fs)); reflexivity. }
  assert (Hshape' :
    new_df reduce avg ramp sites'
    = match calc avg ramp sites with
      | [] => NotComputed
      | _ => match List.concat (calc avg ramp sites) with
             | [] => Uncaught KeyError
             | _ => Computed
                      (map (fun k => (k, reduce (contributions avg ramp sites' k)))
                           (group_keys (List.concat (calc avg ramp sites))))
             end
      end).
  { unfold new_df, aggregate, contributions. rewrite Hkeys.
    destruct (calc avg ramp sites) as [|f fs].
    - apply Permutation_nil in Hcalc. rewrite Hcalc. reflexivity.
    - destruct (calc avg ramp sites') as [|f' fs'];
        [symmetry in Hcalc; apply Permutation_nil in Hcalc; discriminate|].
      destruct (List.concat (f :: fs)) as [|row rows].
      + apply Permutation_nil in Hcat. rewrite Hcat. reflexivity.
      + destruct (List.concat (f' :: fs')) as [|row' rows'];
          [symmetry in Hcat; apply Permutation_nil in Hcat; discriminate|].
        reflexivity. }
  split; [|split; [exact Hcontrib|]].
  - rewrite Hshape, Hshape'.
    destruct (calc avg ramp sites) as [|f fs]; [exact I|].
    destruct (List.concat (f :: fs)) as [|row rows]; [reflexivity|].
    rewrite !map_map. simpl fst. rewrite !map_id. auto.
  - intros Heq. rewrite Hshape, Hshape'.
    destruct (calc avg ramp sites) as [|f fs]; [reflexivity|].
    destruct (List.concat (f :: fs)) as [|row rows]; [reflexivity|].
    f_equal. apply map_ext. intros k. rewrite Heq. reflexivity.
Qed.

Lemma C7_witness :
  match new_df sum_kahan default_hh_avg [33]
          [unit_site 1; unit_site 1; unit_site 4],
        new_df sum_kahan default_hh_avg [33]
          [unit_site 1; unit_site 4; unit_site 1] with
  | Computed df, Computed df' =>
      map fst df = map fst df' /\
      df = map (fun k => (k, sum_kahan
                  (contributions default_hh_avg [33]
                     [unit_site 1; unit_site 1; unit_site 4] k)))
               (map fst df) /\
      df' = map (fun k => (k, sum_kahan
                   (contributions default_hh_avg [33]
                      [unit_site 1; unit_site 4; unit_site 1] k)))
                (map fst df)
  | NotComputed, NotComputed => True
  | Uncaught e, Uncaught e' => e = e'
  | _, _ => False
  end /\
  (forall k, Permutation
     (contributions default_hh_avg [33] [unit_site 1; unit_site 1; unit_site 4] k)
     (contributions default_hh_avg [33] [unit_site 1; unit_site 4; unit_site 1] k)) /\
  ((forall k, sum_kahan
      (contributions default_hh_avg [33] [unit_site 1; unit_site 1; unit_site 4] k)
    = sum_kahan
      (contributions default_hh_avg [33] [unit_site 1; unit_site 4; unit_site 1] k)) ->
   new_df sum_kahan default_hh_avg [33] [unit_site 1; unit_site 1; unit_site 4]
   = new_df sum_kahan default_hh_avg [33] [unit_site 1; unit_site 4; unit_site 1]).
Proof.
  apply (C7_permutation_same_periods_same_contributions sum_kahan
           default_hh_avg [33]).
  apply perm_skip, perm_swap.
Defined.

(** C8. The grouped sum lists its periods in strictly ascending
    chronological order, whatever the order of the records. *)
Theorem C8_ordered_by_period
    (reduce : list Float.float -> Float.float) (avg : Float.float)
    (ramp : list Z) (sites : list site) (df : list (Timestamp * Float.float)) :
  new_df reduce avg ramp sites = Computed df ->
  StronglySorted Timestamp_lt (map fst df).
Proof.
  intros H. apply new_df_computed in H. subst df.
  rewrite map_map. simpl fst. rewrite map_id.
  apply group_keys_sorted.
Qed.

Lemma C8_witness :
  StronglySorted Timestamp_lt
    (map fst
       [ ({| year := 2025; month := 11 |}, Float.of_Z 900);
         ({| year := 2025; month := 12 |}, Float.of_Z 1800);
         ({| year := 2026; month := 1 |}, Float.of_Z 2550);
         ({| year := 2026; month := 2 |}, Float.of_Z 3000);
         ({| year := 2026; month := 3 |}, Float.of_Z 4500);
         ({| year := 2026; month := 4 |}, Float.of_Z 9000);
         ({| year := 2026; month := 5 |}, Float.of_Z 12750);
         ({| year := 2026; month := 6 |}, Float.of_Z 15000) ]).
Proof.
  apply (C8_ordered_by_period sum_kahan default_hh_avg [30; 60; 85; 100]
           [example_site; earlier_site]).
  vm_compute. reflexivity.
Defined.

(** C9. A record with 0 units and a start period that converts is
    not skipped: for a finite consumption it adds to [calc] one frame
    with one entry per index of the ramp, and every volume is zero. *)
Theorem C9_zero_units_all_zero
    (avg : Float.float) (ramp : list Z) (r : site) (y m : Z) :
  py_int (sedaesu r) = Ok 0 -> has_na r = false ->
  Float.is_finite avg = true ->
  parse_start (py_str (ipju r)) = Ok (y, m) ->
  in_range y m (List.length ramp) ->
  Forall float_range ramp ->
  exists rows,
    project avg ramp r = Ok rows /\
    calc avg ramp [r] = [rows] /\
    malformed r = false /\
    List.length rows = List.length ramp /\
    Forall (fun row => Float.is_zero (volume row) = true) rows.
Proof.
  intros Hu Hna Havg Hs Hr Hramp.
  destruct (project_valid avg ramp r 0 y m Hu Hs ltac:(reflexivity) Hr Hramp)
    as (rows & Hrows & Hlen & Hnth).
  exists rows. split; [assumption|].
  split; [apply calc_single_kept; assumption|].
  split; [unfold malformed; rewrite Hu, Hs; reflexivity|].
  split; [assumption|].
  apply Forall_forall. intros row Hin.
  destruct (In_nth_error _ _ Hin) as [i Hi].
  assert (Hlt : (i < List.length ramp)%nat)
    by (rewrite <- Hlen; apply nth_error_Some; rewrite Hi; discriminate).
  destruct (nth_error ramp i) as [p|] eqn:Ep;
    [|apply nth_error_None in Ep; lia].
  destruct (Hnth i p Ep) as (q & _ & Hq & Hrow).
  assert (Hv : volume row = Float.mul (Float.mul (Float.of_Z 0) avg) q)
    by (rewrite Hi in Hrow; apply (f_equal (option_map volume)) in Hrow;
        cbn [option_map volume] in Hrow; congruence).
  rewrite Hv.
  apply mul_zero_l.
  - apply mul_zero_l; [reflexivity|assumption].
  - eapply signed_finite_is_finite, Hq.
Qed.

Lemma C9_witness :
  exists rows,
    project default_hh_avg [30; 60; 85; 100] zero_site = Ok rows /\
    calc default_hh_avg [30; 60; 85; 100] [zero_site] = [rows] /\
    malformed zero_site = false /\
    List.length rows = 4%nat /\
    Forall (fun row => Float.is_zero (volume row) = true) rows.
Proof.
  apply (C9_zero_units_all_zero default_hh_avg [30; 60; 85; 100]
           zero_site 2026 3).
  - reflexivity.
  - reflexivity.
  - reflexivity.
  - reflexivity.
  - unfold in_range, ordinal_min, ordinal_max. simpl. lia.
  - repeat constructor.
Defined.

(** C10. A record with a missing value in any column, the name
    included, is removed by [dropna] before the projection: [calc] and
    the grouped sum are those of the other records alone, even when the
    unit count and the start period of the record convert. *)
Theorem C10_missing_field_dropped
    (reduce : list Float.float -> Float.float) (avg : Float.float)
    (ramp : list Z) (before after : list site) (r : site) :
  danji r = VNone \/ sedaesu r = VNone \/ ipju r = VNone ->
  dropna (before ++ r :: after) = dropna (before ++ after) /\
  calc avg ramp [r] = [] /\
  calc avg ramp (before ++ r :: after) = calc avg ramp (before ++ after) /\
  new_df reduce avg ramp (before ++ r :: after)
  = new_df reduce avg ramp (before ++ after).
Proof.
  intros H.
  assert (Hna : has_na r = true).
  { unfold has_na. destruct H as [-> | [-> | ->]]; simpl.
    - reflexivity.
    - apply orb_true_iff. left. apply orb_true_r.
    - apply orb_true_r. }
  assert (Heq : calc avg ramp (before ++ r :: after)
                = calc avg ramp (before ++ after))
    by (apply calc_skip; left; assumption).
  split.
  - rewrite !dropna_app. f_equal. unfold dropna. simpl.
    rewrite Hna. reflexivity.
  - split; [apply calc_single_skipped; left; assumption|].
    split; [assumption|].
    unfold new_df. rewrite Heq. reflexivity.
Qed.

Lemma C10_witness :
  is_ok (project default_hh_avg [30; 60; 85; 100] unnamed_site) = true /\
  dropna ([earlier_site] ++ unnamed_site :: []) = dropna ([earlier_site] ++ []) /\
  calc default_hh_avg [30; 60; 85; 100] [unnamed_site] = [] /\
  calc default_hh_avg [30; 60; 85; 100] ([earlier_site] ++ unnamed_site :: [])
  = calc default_hh_avg [30; 60; 85; 100] ([earlier_site] ++ []) /\
  new_df sum_kahan default_hh_avg [30; 60; 85; 100]
    ([earlier_site] ++ unnamed_site :: [])
  = new_df sum_kahan default_hh_avg [30; 60; 85; 100] ([earlier_site] ++ []).
Proof.
  split; [reflexivity|].
  apply (C10_missing_field_dropped sum_kahan default_hh_avg [30; 60; 85; 100]
           [earlier_site] [] unnamed_site).
  left. reflexivity.
Defined.

(** * Further properties of the code *)

(** ** Strings *)

Lemma split_length (sep : ascii) (s : string) :
  List.length (Py.split sep s) = S (count_char sep s).
Proof.
  induction s as [|c r IH]; simpl; [reflexivity|].
  destruct (Ascii.eqb c sep); simpl; [rewrite IH; reflexivity|].
  destruct (Py.split sep r) as [|h t] eqn:E; simpl in *; [discriminate|].
  assumption.
Qed.

Lemma split_join (sep : ascii) (s : string) :
  join sep (Py.split sep s) = s.
Proof.
  induction s as [|c r IH]; simpl; [reflexivity|].
  destruct (Ascii.eqb c sep) eqn:E.
  - apply Ascii.eqb_eq in E. subst c.
    destruct (Py.split sep r) as [|h t] eqn:Er;
      [exfalso; eapply split_nonempty; eassumption|].
    change (join sep (EmptyString :: h :: t))
      with (String sep (join sep (h :: t))).
    rewrite IH. reflexivity.
  - destruct (Py.split sep r) as [|h t] eqn:Er;
      [exfalso; eapply split_nonempty; eassumption|].
    destruct t as [|h' t']; simpl in *; rewrite <- IH; reflexivity.
Qed.

Lemma split_pieces_clean (sep : ascii) (s : string) :
  Forall (fun p => has_char sep p = false) (Py.split sep s).
Proof.
  induction s as [|c r IH]; simpl; [repeat constructor|].
  destruct (Ascii.eqb c sep) eqn:E.
  - constructor; [reflexivity|assumption].
  - destruct (Py.split sep r) as [|h t]; [repeat constructor; simpl; rewrite E; reflexivity|].
    inversion IH; subst. constructor; [simpl; rewrite E; assumption|assumption].
Qed.

Lemma split_app (sep : ascii) (a b : string) :
  Py.split sep (a ++ String sep b) = Py.split sep a ++ Py.split sep b.
Proof.
  induction a as [|c r IH]; simpl.
  - rewrite Ascii.eqb_refl. reflexivity.
  - destruct (Ascii.eqb c sep); [rewrite IH; reflexivity|].
    rewrite IH.
    destruct (Py.split sep r) as [|h t] eqn:E;
      [exfalso; eapply split_nonempty; eassumption|].
    reflexivity.
Qed.

Lemma split_no_sep (sep : ascii) (s : string) :
  has_char sep s = false -> Py.split sep s = [s].
Proof.
  induction s as [|c r IH]; simpl; [reflexivity|].
  intros H. apply orb_false_iff in H. destruct H as [H1 H2].
  rewrite H1, (IH H2). reflexivity.
Qed.

Lemma digit_cases (d : Z) :
  0 <= d <= 9 ->
  d = 0 \/ d = 1 \/ d = 2 \/ d = 3 \/ d = 4 \/ d = 5 \/ d = 6 \/ d = 7 \/
  d = 8 \/ d = 9.
Proof. lia. Qed.

Ltac each_digit d H :=
  destruct (digit_cases d H) as
    [->|[->|[->|[->|[->|[->|[->|[->|[->| ->]]]]]]]]].

Lemma digit_val_digit_char (d : Z) :
  0 <= d <= 9 -> Py.digit_val (Py.digit_char d) = Some d.
Proof. intros H. each_digit d H; reflexivity. Qed.

Lemma digit_char_not_comma (d : Z) :
  0 <= d <= 9 -> Ascii.eqb (Py.digit_char d) ","%char = false.
Proof. intros H. each_digit d H; reflexivity. Qed.

Lemma int_of_string_digit_head (d : Z) (r : string) :
  0 <= d <= 9 ->
  Py.int_of_string (String (Py.digit_char d) r)
  = Py.digits (String (Py.digit_char d) r) 0 false.
Proof. intros H. each_digit d H; reflexivity. Qed.

Lemma str_of_pos_fuel_unfold (fuel : nat) (n : Z) (acc : string) :
  Py.str_of_pos_fuel (S fuel) n acc
  = if n <? 10 then String (Py.digit_char (n mod 10)) acc
    else Py.str_of_pos_fuel fuel (n / 10)
           (String (Py.digit_char (n mod 10)) acc).
Proof. reflexivity. Qed.

Lemma digits_digit (d : Z) (r : string) (a : Z) (prev : bool) :
  0 <= d <= 9 ->
  Py.digits (String (Py.digit_char d) r) a prev = Py.digits r (10 * a + d) true.
Proof.
  intros H. cbn [Py.digits]. rewrite digit_val_digit_char by assumption.
  reflexivity.
Qed.

Lemma pow10_succ (f : nat) : 10 ^ Z.of_nat (S f) = 10 * 10 ^ Z.of_nat f.
Proof. rewrite Nat2Z.inj_succ, Z.pow_succ_r by lia. reflexivity. Qed.

(** Reading back the digits written in front of [acc]. *)
Lemma digits_str_of_pos_fuel (fuel : nat) : forall n acc a prev,
  (0 < fuel)%nat -> 0 <= n < 10 ^ Z.of_nat fuel ->
  exists k, 0 <= k /\
    Py.digits (Py.str_of_pos_fuel fuel n acc) a prev
    = Py.digits acc (a * 10 ^ k + n) true.
Proof.
  induction fuel as [|f IH]; intros n acc a prev Hf Hn.
  - lia.
  - rewrite str_of_pos_fuel_unfold.
    assert (Hd : 0 <= n mod 10 <= 9) by (Z.div_mod_to_equations; lia).
    destruct (n <? 10) eqn:E.
    + apply Z.ltb_lt in E. exists 1. split; [lia|].
      rewrite digits_digit by assumption.
      f_equal. rewrite Z.mod_small by lia. lia.
    + apply Z.ltb_ge in E. rewrite pow10_succ in Hn.
      assert (Hf' : (0 < f)%nat)
        by (destruct f; [simpl in Hn; lia|lia]).
      destruct (IH (n / 10) (String (Py.digit_char (n mod 10)) acc) a prev Hf')
        as (k & Hk & Heq); [Z.div_mod_to_equations; lia|].
      exists (k + 1). split; [lia|].
      rewrite Heq, digits_digit by assumption.
      f_equal. rewrite Z.pow_add_r by lia.
      Z.div_mod_to_equations. lia.
Qed.

Lemma str_of_pos_fuel_head (fuel : nat) : forall n acc,
  (0 < fuel)%nat -> 0 <= n < 10 ^ Z.of_nat fuel ->
  exists d r, 0 <= d <= 9 /\
    Py.str_of_pos_fuel fuel n acc = String (Py.digit_char d) r.
Proof.
  induction fuel as [|f IH]; intros n acc Hf Hn.
  - lia.
  - rewrite str_of_pos_fuel_unfold.
    assert (Hd : 0 <= n mod 10 <= 9) by (Z.div_mod_to_equations; lia).
    destruct (n <? 10) eqn:E.
    + eauto.
    + apply Z.ltb_ge in E. rewrite pow10_succ in Hn.
      apply IH; [destruct f; [simpl in Hn; lia|lia]|].
      Z.div_mod_to_equations; lia.
Qed.

Lemma str_of_pos_fuel_no_comma (fuel : nat) : forall n acc,
  0 <= n ->
  has_char ","%char (Py.str_of_pos_fuel fuel n acc) = has_char ","%char acc.
Proof.
  induction fuel as [|f IH]; intros n acc Hn; [reflexivity|].
  rewrite str_of_pos_fuel_unfold.
  assert (Hd : 0 <= n mod 10 <= 9) by (Z.div_mod_to_equations; lia).
  destruct (n <? 10).
  - simpl. rewrite digit_char_not_comma by assumption. reflexivity.
  - rewrite IH by (Z.div_mod_to_equations; lia).
    simpl. rewrite digit_char_not_comma by assumption. reflexivity.
Qed.

Lemma fuel_enough (n : Z) :
  0 <= n -> n < 10 ^ Z.of_nat (S (Z.to_nat (Z.log2 n))).
Proof.
  intros Hn. rewrite Nat2Z.inj_succ, Z2Nat.id by apply Z.log2_nonneg.
  destruct (Z.eq_dec n 0) as [->|Hz]; [reflexivity|].
  pose proof (Z.log2_spec n ltac:(lia)) as [_ Hlt].
  eapply Z.lt_le_trans; [exact Hlt|].
  apply Z.pow_le_mono_l. pose proof (Z.log2_nonneg n). lia.
Qed.

Lemma int_of_str_nonneg (n : Z) :
  0 <= n ->
  Py.int_of_string
    (Py.str_of_pos_fuel (S (Z.to_nat (Z.log2 n))) n EmptyString) = Ok n.
Proof.
  intros Hn. pose proof (fuel_enough n Hn) as Hf.
  destruct (str_of_pos_fuel_head _ n EmptyString (Nat.lt_0_succ _) (conj Hn Hf))
    as (d & r & Hd & Heq).
  destruct (digits_str_of_pos_fuel _ n EmptyString 0 false
              (Nat.lt_0_succ _) (conj Hn Hf)) as (k & Hk & Hdig).
  rewrite Heq in *. rewrite int_of_string_digit_head by assumption.
  rewrite Hdig. reflexivity.
Qed.

Lemma int_of_str_of_int (z : Z) :
  Py.int_of_string (Py.str_of_int z) = Ok z.
Proof.
  unfold Py.str_of_int. destruct (z <? 0) eqn:E.
  - apply Z.ltb_lt in E.
    change (Py.int_of_string (String "-"%char ?s))
      with (bind (Py.digits s 0 false) (fun n => Ok (- n))).
    pose proof (fuel_enough (Z.abs z) ltac:(lia)) as Hf.
    destruct (digits_str_of_pos_fuel _ (Z.abs z) EmptyString 0 false
                (Nat.lt_0_succ _) (conj (Z.abs_nonneg z) Hf)) as (k & Hk & Hdig).
    rewrite Hdig. simpl. f_equal. lia.
  - apply Z.ltb_ge in E. rewrite Z.abs_eq by assumption.
    apply int_of_str_nonneg. assumption.
Qed.

Lemma str_of_int_no_comma (z : Z) :
  has_char ","%char (Py.str_of_int z) = false.
Proof.
  unfold Py.str_of_int.
  destruct (z <? 0); [cbn [has_char]; change (Ascii.eqb "-" ",")%char with false;
                      cbn [orb]|];
    rewrite str_of_pos_fuel_no_comma by lia; reflexivity.
Qed.

Lemma digits_raise (s : string) : forall a prev e,
  Py.digits s a prev = Raise e -> e = ValueError.
Proof.
  induction s as [|c r IH]; intros a prev e; cbn [Py.digits].
  - destruct prev; [discriminate|congruence].
  - destruct (Py.digit_val c); [apply IH|].
    destruct (prev && Ascii.eqb c "_"%char).
    + destruct r as [|c' r']; [congruence|].
      destruct (Py.digit_val c'); [apply IH|congruence].
    + destruct (prev && Py.all_space (String c r)); [discriminate|congruence].
Qed.

Lemma digits_nonneg (s : string) : forall a prev n,
  0 <= a -> Py.digits s a prev = Ok n -> 0 <= n.
Proof.
  induction s as [|c r IH]; intros a prev n Ha; cbn [Py.digits].
  - destruct prev; [|discriminate]. intros H; injection H as <-. assumption.
  - destruct (Py.digit_val c) as [d|] eqn:Ed.
    + apply IH. unfold Py.digit_val in Ed.
      destruct ((48 <=? _) && _) eqn:E; [|discriminate].
      injection Ed as <-. apply andb_true_iff in E. destruct E as [E _].
      apply Z.leb_le in E. lia.
    + destruct (prev && Ascii.eqb c "_"%char).
      * destruct r as [|c' r']; [discriminate|].
        destruct (Py.digit_val c'); [apply IH; assumption|discriminate].
      * destruct (prev && Py.all_space (String c r)); [|discriminate].
        intros H; injection H as <-. assumption.
Qed.

(** The three shapes of an integer literal after the leading white
    space. *)
Lemma int_of_string_cases (s : string) :
  Py.int_of_string s
  = match Py.lstrip s with
    | EmptyString => Raise ValueError
    | String c r =>
        if Ascii.eqb c "-"%char
        then bind (Py.digits r 0 false) (fun n => Ok (- n))
        else if Ascii.eqb c "+"%char then Py.digits r 0 false
        else Py.digits (String c r) 0 false
    end.
Proof.
  unfold Py.int_of_string. destruct (Py.lstrip s) as [|c r]; [reflexivity|].
  destruct c as [[] [] [] [] [] [] [] []]; reflexivity.
Qed.

Lemma int_of_string_raise (s : string) (e : exn) :
  Py.int_of_string s = Raise e -> e = ValueError.
Proof.
  rewrite int_of_string_cases.
  destruct (Py.lstrip s) as [|c r]; [congruence|].
  destruct (Ascii.eqb c "-"%char).
  - destruct (Py.digits r 0 false) eqn:E; simpl; [discriminate|].
    intros H; injection H as <-. eapply digits_raise; eassumption.
  - destruct (Ascii.eqb c "+"%char); apply digits_raise.
Qed.

Lemma lstrip_has_char (c : ascii) (s : string) :
  has_char c s = false -> has_char c (Py.lstrip s) = false.
Proof.
  induction s as [|c' r IH]; simpl; [auto|].
  intros H. destruct (Py.is_space c'); [|exact H].
  apply orb_false_iff in H. apply IH, H.
Qed.

Lemma int_of_string_no_minus (s : string) (n : Z) :
  has_char "-"%char s = false -> Py.int_of_string s = Ok n -> 0 <= n.
Proof.
  intros Hs. apply lstrip_has_char in Hs. rewrite int_of_string_cases.
  destruct (Py.lstrip s) as [|c r]; [discriminate|].
  simpl in Hs. apply orb_false_iff in Hs. destruct Hs as [Hc _].
  rewrite Hc.
  destruct (Ascii.eqb c "+"%char); apply digits_nonneg; lia.
Qed.

Lemma ints_of_raise (l : list string) (e : exn) :
  ints_of l = Raise e -> e = ValueError.
Proof.
  induction l as [|s t IH]; simpl; [discriminate|].
  destruct (Py.int_of_string s) eqn:E; simpl.
  - destruct (ints_of t); simpl; [discriminate|].
    intros H; injection H as <-. apply IH. reflexivity.
  - intros H; injection H as <-. eapply int_of_string_raise; eassumption.
Qed.

Lemma ints_of_bad_piece (l : list string) (p : string) :
  In p l -> is_ok (Py.int_of_string p) = false -> ints_of l = Raise ValueError.
Proof.
  intros Hin Hp.
  destruct (ints_of l) as [zs|e] eqn:E;
    [|f_equal; eapply ints_of_raise; eassumption].
  exfalso. revert zs E. induction l as [|s t IH]; intros zs; [contradiction|].
  simpl. destruct Hin as [->|Hin].
  - destruct (Py.int_of_string p); [discriminate|]. discriminate.
  - destruct (Py.int_of_string s); simpl; [|discriminate].
    destruct (ints_of t) as [zs'|] eqn:Et; simpl; [|discriminate].
    intros _. eapply IH; eauto.
Qed.

Lemma ints_of_str (l : list Z) : ints_of (map Py.str_of_int l) = Ok l.
Proof.
  induction l as [|z t IH]; simpl; [reflexivity|].
  rewrite int_of_str_of_int. simpl. rewrite IH. reflexivity.
Qed.

Lemma split_join_clean (sep : ascii) (l : list string) :
  l <> [] -> Forall (fun p => has_char sep p = false) l ->
  Py.split sep (join sep l) = l.
Proof.
  induction l as [|p t IH]; [contradiction|]. intros _ Hall.
  inversion Hall as [|? ? Hp Ht]; subst.
  destruct t as [|q t'].
  - simpl. apply split_no_sep. assumption.
  - change (join sep (p :: q :: t'))
      with (p ++ String sep (join sep (q :: t')))%string.
    rewrite split_app, split_no_sep by assumption.
    rewrite IH by (assumption || discriminate). reflexivity.
Qed.

(** X5. Writing the integers of a non-empty list in decimal, separated
    by commas, gives a ramp text that is read back as that list, when
    every integer has at most 4300 decimal digits. *)
Theorem X5_parse_ramp_round_trip (l : list Z) :
  l <> [] -> Forall str_convertible l ->
  parse_ramp (join ","%char (map Py.str_of_int l)) = Ok l.
Proof.
  intros Hl _. unfold parse_ramp.
  rewrite split_join_clean.
  - apply ints_of_str.
  - destruct l; [contradiction|discriminate].
  - apply Forall_forall. intros p Hp. apply in_map_iff in Hp.
    destruct Hp as (z & <- & _). apply str_of_int_no_comma.
Qed.

Lemma X5_witness :
  parse_ramp (join ","%char (map Py.str_of_int [30; 60; 85; 100]))
  = Ok [30; 60; 85; 100].
Proof.
  apply (X5_parse_ramp_round_trip [30; 60; 85; 100]).
  - discriminate.
  - repeat constructor; unfold str_convertible, max_str_digits;
      vm_compute; reflexivity.
Defined.

(** X3. A ramp text that ends with a comma, starts with a comma or has
    two commas in a row raises [ValueError]: an empty piece is no
    integer literal, and the comprehension has no handler. *)
Theorem X3_parse_ramp_blank_piece :
  (forall s, parse_ramp (s ++ ",") = Raise ValueError) /\
  (forall s, parse_ramp ("," ++ s) = Raise ValueError) /\
  (forall a b, parse_ramp (a ++ ",," ++ b) = Raise ValueError).
Proof.
  unfold parse_ramp. split; [|split].
  - intros s. change (s ++ ",")%string with (s ++ String ","%char EmptyString)%string.
    rewrite split_app. apply ints_of_bad_piece with (p := EmptyString).
    + apply in_or_app. right. left. reflexivity.
    + reflexivity.
  - intros s. reflexivity.
  - intros a b.
    change (a ++ ",," ++ b)%string
      with (a ++ String ","%char (String ","%char b))%string.
    rewrite split_app. apply ints_of_bad_piece with (p := EmptyString).
    + apply in_or_app. right. simpl. left. reflexivity.
    + reflexivity.
Qed.

(** X2. A ramp text that parses gives one entry per piece: one more
    than the number of commas in the text. *)
Theorem X2_parse_ramp_length (s : string) (ramp : list Z) :
  parse_ramp s = Ok ramp ->
  List.length ramp = S (count_char ","%char s).
Proof.
  unfold parse_ramp. intros H. apply ints_of_length in H.
  rewrite H. apply split_length.
Qed.

Lemma X2_witness :
  List.length [30; 60; 85; 100] = S (count_char ","%char default_ramp_text).
Proof. apply (X2_parse_ramp_length default_ramp_text). reflexivity. Defined.

(** X6. A start period that converts never yields a negative year or
    month: the minus sign is the separator, so no piece can carry one. *)
Theorem X6_parse_start_nonneg (s : string) (y m : Z) :
  parse_start s = Ok (y, m) -> 0 <= y /\ 0 <= m.
Proof.
  unfold parse_start.
  pose proof (split_pieces_clean "-"%char s) as Hclean.
  destruct (Py.split "-"%char s) as [|a [|b [|c t]]]; try discriminate.
  inversion Hclean as [|? ? Ha Hrest]; subst.
  inversion Hrest as [|? ? Hb _]; subst.
  destruct (Py.int_of_string a) as [y'|] eqn:Ey; simpl; [|discriminate].
  destruct (Py.int_of_string b) as [m'|] eqn:Em; simpl; [|discriminate].
  intros H; injection H as <- <-.
  split; [apply (int_of_string_no_minus a)|apply (int_of_string_no_minus b)];
    assumption.
Qed.

Lemma X6_witness : 0 <= 2026 /\ 0 <= 3.
Proof. apply (X6_parse_start_nonneg "2026-03"). reflexivity. Defined.

(** ** [pick_latest] *)

Lemma ltb_rank (x y : Float.float) :
  Float.is_nan x = false -> Float.is_nan y = false ->
  (Float.ltb x y = true <-> rank_lt (float_rank x) (float_rank y)).
Proof.
  unfold Float.ltb, SFltb, rank_lt.
  destruct x as [sx|sx| |sx mx ex], y as [sy|sy| |sy my ey];
    try discriminate; intros _ _;
    try destruct sx; try destruct sy; cbn [SFcompare float_rank];
    try change (Pos.compare_cont Eq mx my) with (Pos.compare mx my);
    try destruct (Z.compare_spec ex ey);
    try destruct (Pos.compare_spec mx my);
    cbn [CompOpp];
    (split; [try discriminate; intros _; lia | try reflexivity; lia]).
Qed.

Lemma ltb_asym (x y : Float.float) :
  Float.is_nan x = false -> Float.is_nan y = false ->
  Float.ltb x y = true -> Float.ltb y x = false.
Proof.
  intros Hx Hy H. apply (ltb_rank x y Hx Hy) in H.
  destruct (Float.ltb y x) eqn:E; [|reflexivity].
  apply (ltb_rank y x Hy Hx) in E. exfalso.
  unfold rank_lt in *.
  destruct (float_rank x) as [[a1 a2] a3], (float_rank y) as [[b1 b2] b3]. lia.
Qed.

(** If neither [x < y] nor [y < z] then not [x < z]. *)
Lemma ltb_neg_trans (x y z : Float.float) :
  Float.is_nan x = false -> Float.is_nan y = false -> Float.is_nan z = false ->
  Float.ltb x y = false -> Float.ltb y z = false -> Float.ltb x z = false.
Proof.
  intros Hx Hy Hz H1 H2.
  destruct (Float.ltb x z) eqn:E; [|reflexivity]. exfalso.
  apply (ltb_rank x z Hx Hz) in E.
  assert (N1 : ~ rank_lt (float_rank x) (float_rank y))
    by (intros H; apply (ltb_rank x y Hx Hy) in H; congruence).
  assert (N2 : ~ rank_lt (float_rank y) (float_rank z))
    by (intros H; apply (ltb_rank y z Hy Hz) in H; congruence).
  unfold rank_lt in *.
  destruct (float_rank x) as [[a1 a2] a3], (float_rank y) as [[b1 b2] b3],
    (float_rank z) as [[c1 c2] c3]. lia.
Qed.

Section PickLatest.

Variable fs : filesystem.

Lemma hd_insert_desc (p : string) (l : list string) :
  hd_error (insert_desc fs p l) = Some (best_of fs p (hd_error l)).
Proof.
  destruct l as [|q t]; simpl; [reflexivity|].
  destruct (Float.ltb _ _); reflexivity.
Qed.

Lemma sorted_desc_nonempty (l : list string) :
  l <> [] -> hd_error (sorted_desc fs l) <> None.
Proof.
  destruct l as [|x rest]; [contradiction|]. intros _.
  unfold sorted_desc. simpl. rewrite hd_insert_desc. discriminate.
Qed.

(** The head of the sorted list is the first path with the latest
    time. *)
Lemma hd_sorted_desc (l : list string) : forall p,
  Forall (fun q => Float.is_nan (st_mtime fs q) = false) l ->
  hd_error (sorted_desc fs l) = Some p ->
  (forall q, In q l -> Float.ltb (st_mtime fs p) (st_mtime fs q) = false) /\
  exists l1 l2, l = l1 ++ p :: l2 /\
    forall q, In q l1 -> Float.ltb (st_mtime fs q) (st_mtime fs p) = true.
Proof.
  induction l as [|x rest IH]; intros p Hnan; [discriminate|].
  inversion Hnan as [|? ? Hx Hrest]; subst.
  unfold sorted_desc in *. simpl fold_right. rewrite hd_insert_desc.
  intros H; injection H as <-.
  destruct (hd_error (fold_right (insert_desc fs) [] rest)) as [q|] eqn:Eq.
  - destruct (IH q Hrest eq_refl) as (Hmax & l1 & l2 & Hsplit & Hbefore).
    assert (Hq : Float.is_nan (st_mtime fs q) = false).
    { rewrite Forall_forall in Hrest. apply Hrest. rewrite Hsplit.
      apply in_or_app. right. left. reflexivity. }
    simpl best_of. destruct (Float.ltb (st_mtime fs x) (st_mtime fs q)) eqn:E.
    + split.
      * intros y [<-|Hy]; [apply ltb_asym; assumption|apply Hmax, Hy].
      * exists (x :: l1), l2. split; [rewrite Hsplit; reflexivity|].
        intros y [<-|Hy]; [assumption|apply Hbefore, Hy].
    + split.
      * intros y [<-|Hy].
        -- destruct (Float.ltb (st_mtime fs x) (st_mtime fs x)) eqn:Exx;
             [|reflexivity].
           rewrite (ltb_asym _ _ Hx Hx Exx) in Exx. discriminate.
        -- apply ltb_neg_trans with (y := st_mtime fs q); auto.
           rewrite Forall_forall in Hrest. apply Hrest, Hy.
      * exists [], rest. split; [reflexivity|]. intros y [].
  - destruct rest as [|y rest'].
    + simpl. split.
      * intros y [<-|[]].
        destruct (Float.ltb (st_mtime fs x) (st_mtime fs x)) eqn:Exx;
          [|reflexivity].
        rewrite (ltb_asym _ _ Hx Hx Exx) in Exx. discriminate.
      * exists [], []. split; [reflexivity|]. intros y [].
    + exfalso. simpl in Eq. rewrite hd_insert_desc in Eq. discriminate.
Qed.

End PickLatest.

(** X17. [pick_latest] returns [None] exactly when no pattern matches
    any path. *)
Theorem X17_pick_latest_none (fs : filesystem) (patterns : list string) :
  pick_latest fs patterns = None <->
  forall pat, In pat patterns -> glob fs pat = [].
Proof.
  unfold pick_latest. split.
  - destruct (flat_map (glob fs) patterns) as [|c cs] eqn:E.
    + intros _ pat Hin.
      destruct (glob fs pat) as [|x xs] eqn:Eg; [reflexivity|]. exfalso.
      assert (Hx : In x (flat_map (glob fs) patterns))
        by (apply in_flat_map; exists pat; rewrite Eg; split;
            [assumption|left; reflexivity]).
      rewrite E in Hx. contradiction.
    + intros H. exfalso.
      apply (sorted_desc_nonempty fs (c :: cs)); [discriminate|assumption].
  - intros H.
    assert (E : flat_map (glob fs) patterns = []).
    { induction patterns as [|pat rest IH]; [reflexivity|]. simpl.
      rewrite (H pat (or_introl eq_refl)). simpl.
      apply IH. intros p Hp. apply H. right. assumption. }
    rewrite E. reflexivity.
Qed.

(** X18. When no modification time is NaN, the path returned by
    [pick_latest] is a match whose time no other match exceeds, and it is
    the first such match in the order of the patterns and of [glob]:
    every match listed before it is strictly older. *)
Theorem X18_pick_latest_first_latest
    (fs : filesystem) (patterns : list string) (p : string) :
  Forall (fun q => Float.is_nan (st_mtime fs q) = false)
         (flat_map (glob fs) patterns) ->
  pick_latest fs patterns = Some p ->
  (forall q, In q (flat_map (glob fs) patterns) ->
     Float.ltb (st_mtime fs p) (st_mtime fs q) = false) /\
  exists l1 l2, flat_map (glob fs) patterns = l1 ++ p :: l2 /\
    forall q, In q l1 -> Float.ltb (st_mtime fs q) (st_mtime fs p) = true.
Proof.
  unfold pick_latest. intros Hnan.
  destruct (flat_map (glob fs) patterns) as [|c cs] eqn:E; [discriminate|].
  apply hd_sorted_desc. assumption.
Qed.

Lemma X18_witness :
  (forall q,
     In q (flat_map (glob example_fs)
             ["data/supply_*.xlsx"; "data/*supply*.xlsx"]%string) ->
     Float.ltb (st_mtime example_fs "data/supply_2025.xlsx")
               (st_mtime example_fs q) = false) /\
  exists l1 l2,
    flat_map (glob example_fs) ["data/supply_*.xlsx"; "data/*supply*.xlsx"]%string
    = l1 ++ "data/supply_2025.xlsx"%string :: l2 /\
    forall q, In q l1 ->
      Float.ltb (st_mtime example_fs q)
                (st_mtime example_fs "data/supply_2025.xlsx") = true.
Proof.
  apply (X18_pick_latest_first_latest example_fs
           ["data/supply_*.xlsx"; "data/*supply*.xlsx"]%string
           "data/supply_2025.xlsx").
  - repeat constructor.
  - reflexivity.
Defined.

(** ** [calc] and [new_df] *)

Lemma calc_invariant_aux (avg : Float.float) (ramp : list Z) (l : list site) :
  Forall (fun f => List.length f = List.length ramp) (calc_loop avg ramp l) /\
  (List.length (calc_loop avg ramp l) <= List.length l)%nat.
Proof.
  induction l as [|r rest [IH1 IH2]]; simpl; [split; [constructor|lia]|].
  destruct (project avg ramp r) as [df|] eqn:E; simpl.
  - split; [|lia]. constructor; [|assumption].
    eapply project_length; eassumption.
  - split; [assumption|lia].
Qed.

Lemma dropna_length (l : list site) :
  (List.length (dropna l) <= List.length l)%nat.
Proof. apply filter_length_le. Qed.

(** X11. Every frame of [calc] has exactly one entry per index of the
    ramp, never a part of a projection, and [calc] holds at most one frame
    per record of the table. *)
Theorem X11_calc_frames_complete (avg : Float.float) (ramp : list Z)
    (new_sites : list site) :
  Forall (fun f => List.length f = List.length ramp) (calc avg ramp new_sites) /\
  (List.length (calc avg ramp new_sites) <= List.length new_sites)%nat.
Proof.
  unfold calc.
  destruct (calc_invariant_aux avg ramp (dropna new_sites)) as [H1 H2].
  split; [assumption|]. pose proof (dropna_length new_sites). lia.
Qed.

Lemma calc_nil_iff (avg : Float.float) (ramp : list Z) (l : list site) :
  calc avg ramp l = [] <->
  Forall (fun r => has_na r = true \/ is_ok (project avg ramp r) = false) l.
Proof.
  induction l as [|r rest IH].
  - split; [constructor|reflexivity].
  - rewrite (calc_cons avg ramp r rest). split.
    + intros H. apply app_eq_nil in H. destruct H as [H1 H2].
      constructor; [|apply IH; assumption].
      destruct (has_na r) eqn:Ena; [left; reflexivity|right].
      destruct (project avg ramp r) as [df|] eqn:Ep; [|reflexivity].
      rewrite (calc_single_kept avg ramp r df Ena Ep) in H1. discriminate.
    + intros H. inversion H as [|? ? Hr Hrest]; subst.
      rewrite (calc_single_skipped avg ramp r Hr).
      apply IH. assumption.
Qed.

(** X12. Nothing is computed (no chart, no download) exactly when
    every record of the table has a missing value or raises in the
    projection. *)
Theorem X12_new_df_not_computed
    (reduce : list Float.float -> Float.float) (avg : Float.float)
    (ramp : list Z) (new_sites : list site) :
  new_df reduce avg ramp new_sites = NotComputed <->
  Forall (fun r => has_na r = true \/ is_ok (project avg ramp r) = false)
         new_sites.
Proof.
  rewrite <- calc_nil_iff. unfold new_df, aggregate.
  destruct (calc avg ramp new_sites) as [|f fs]; [split; reflexivity|].
  split; [|discriminate].
  destruct (List.concat (f :: fs)); discriminate.
Qed.

Lemma calc_In_iff (avg : Float.float) (ramp : list Z) (l : list site)
    (df : DataFrame) :
  In df (calc avg ramp l) <->
  exists r, In r l /\ has_na r = false /\ project avg ramp r = Ok df.
Proof.
  split.
  - induction l as [|r rest IH]; [intros []|].
    rewrite (calc_cons avg ramp r rest). intros H.
    apply in_app_or in H. destruct H as [H|H].
    + destruct (has_na r) eqn:Ena;
        [rewrite (calc_single_skipped avg ramp r (or_introl Ena)) in H;
         contradiction|].
      destruct (project avg ramp r) as [df'|] eqn:Ep.
      * rewrite (calc_single_kept avg ramp r df' Ena Ep) in H.
        destruct H as [<-|[]]. exists r. repeat split; auto. left; reflexivity.
      * rewrite (calc_single_skipped avg ramp r) in H
          by (right; rewrite Ep; reflexivity).
        contradiction.
    + destruct (IH H) as (r' & Hin & Hna & Hp).
      exists r'. repeat split; auto. right; assumption.
  - intros (r & Hin & Hna & Hp). eapply calc_In; eassumption.
Qed.

(** X13. The grouped sum has a row for a period exactly when the
    projection of some record without missing value has an entry for that
    period: no period is lost and none is invented. *)
Theorem X13_new_df_periods
    (reduce : list Float.float -> Float.float) (avg : Float.float)
    (ramp : list Z) (new_sites : list site)
    (df : list (Timestamp * Float.float)) (k : Timestamp) :
  new_df reduce avg ramp new_sites = Computed df ->
  (In k (map fst df) <->
   exists r rows row,
     In r new_sites /\ has_na r = false /\ project avg ramp r = Ok rows /\
     In row rows /\ ym row = k).
Proof.
  intros H. apply new_df_computed in H. subst df.
  rewrite map_map. simpl fst. rewrite map_id, group_keys_In.
  rewrite in_map_iff. split.
  - intros (row & Hk & Hin). apply in_concat in Hin.
    destruct Hin as (rows & Hrows & Hrow).
    apply calc_In_iff in Hrows. destruct Hrows as (r & Hr & Hna & Hp).
    exists r, rows, row. auto.
  - intros (r & rows & row & Hr & Hna & Hp & Hrow & Hk).
    exists row. split; [assumption|]. apply in_concat.
    exists rows. split; [|assumption]. apply calc_In_iff. eauto.
Qed.

Lemma X13_witness :
  In {| year := 2025; month := 12 |}
     (map fst
        [ ({| year := 2025; month := 11 |}, Float.of_Z 900);
          ({| year := 2025; month := 12 |}, Float.of_Z 1800);
          ({| year := 2026; month := 1 |}, Float.of_Z 2550);
          ({| year := 2026; month := 2 |}, Float.of_Z 3000) ]) <->
  exists r rows row,
    In r [abc_site; earlier_site] /\ has_na r = false /\
    project default_hh_avg [30; 60; 85; 100] r = Ok rows /\
    In row rows /\ ym row = {| year := 2025; month := 12 |}.
Proof.
  apply (X13_new_df_periods sum_kahan default_hh_avg [30; 60; 85; 100]
           [abc_site; earlier_site]).
  vm_compute. reflexivity.
Defined.

(** X20. The name of a record is only tested for being missing: two
    tables whose records agree on the unit count, on the start period and
    on whether the name is missing give the same [calc] and the same
    grouped sum. *)
Theorem X20_name_is_not_read
    (avg : Float.float) (ramp : list Z) (sites sites' : list site) :
  Forall2 (fun r r' => sedaesu r = sedaesu r' /\ ipju r = ipju r' /\
                       isna (danji r) = isna (danji r')) sites sites' ->
  calc avg ramp sites = calc avg ramp sites' /\
  forall reduce, new_df reduce avg ramp sites = new_df reduce avg ramp sites'.
Proof.
  intros H.
  assert (Heq : calc avg ramp sites = calc avg ramp sites').
  { induction H as [|r r' l l' (Hu & Hs & Hn) _ IH]; [reflexivity|].
    rewrite (calc_cons avg ramp r l), (calc_cons avg ramp r' l'), IH.
    f_equal. unfold calc, dropna, has_na. simpl filter.
    rewrite Hu, Hs, Hn.
    destruct (negb _); [|reflexivity].
    simpl. unfold project. rewrite Hu, Hs. reflexivity. }
  split; [assumption|]. intros reduce. unfold new_df. rewrite Heq. reflexivity.
Qed.

Lemma X20_witness :
  calc default_hh_avg [30; 60; 85; 100] [example_site; unnamed_site]
  = calc default_hh_avg [30; 60; 85; 100]
      [site_of (VInt 7) 500 "2026-03"; site_of VNone 500 "2026-03"] /\
  forall reduce,
    new_df reduce default_hh_avg [30; 60; 85; 100] [example_site; unnamed_site]
    = new_df reduce default_hh_avg [30; 60; 85; 100]
        [site_of (VInt 7) 500 "2026-03"; site_of VNone 500 "2026-03"].
Proof.
  apply (X20_name_is_not_read default_hh_avg [30; 60; 85; 100]
           [example_site; unnamed_site]
           [site_of (VInt 7) 500 "2026-03"; site_of VNone 500 "2026-03"]).
  repeat constructor.
Defined.

(** Periods of one projection *)

Lemma sorted_from_nth {A : Type} (R : A -> A -> Prop) (l : list A) :
  (forall i j a b, (i < j)%nat -> nth_error l i = Some a ->
     nth_error l j = Some b -> R a b) ->
  StronglySorted R l.
Proof.
  induction l as [|x t IH]; intros H; constructor.
  - apply IH. intros i j a b Hij Ha Hb. apply (H (S i) (S j)); auto. lia.
  - apply Forall_forall. intros y Hy.
    destruct (In_nth_error _ _ Hy) as [j Hj].
    apply (H 0%nat (S j)); auto. lia.
Qed.

Lemma to_timestamp_ok (p : Period) (t : Timestamp) :
  to_timestamp p = Ok t ->
  t = {| year := 1970 + ordinal p / 12; month := ordinal p mod 12 + 1 |}.
Proof.
  unfold to_timestamp. destruct (_ && _); [|discriminate]. congruence.
Qed.

Lemma to_timestamp_lt (per : Period) (i j : Z) (a b : Timestamp) :
  i < j ->
  to_timestamp (Period_add per i) = Ok a ->
  to_timestamp (Period_add per j) = Ok b ->
  Timestamp_lt a b.
Proof.
  intros Hij Ha Hb.
  apply to_timestamp_ok in Ha, Hb. subst a b.
  unfold Period_add, Timestamp_lt, Timestamp_ltb. cbn [year month ordinal].
  apply orb_true_iff.
  destruct (Z.eq_dec ((ordinal per + i) / 12) ((ordinal per + j) / 12)) as [E|E].
  - right. apply andb_true_iff. split; [apply Z.eqb_eq; lia|].
    apply Z.ltb_lt. Z.div_mod_to_equations. lia.
  - left. apply Z.ltb_lt. Z.div_mod_to_equations. lia.
Qed.

Lemma project_periods_sorted (avg : Float.float) (ramp : list Z) (r : site)
    (rows : DataFrame) :
  project avg ramp r = Ok rows ->
  StronglySorted Timestamp_lt (map ym rows).
Proof.
  unfold project, monthly_new.
  destruct (py_int (sedaesu r)) as [hh|]; simpl; [|discriminate].
  destruct (parse_start _) as [[y m]|]; simpl; [|discriminate].
  intros Hloop. apply sorted_from_nth.
  intros i j a b Hij Ha Hb.
  pose proof (monthly_new_loop_length hh y m avg ramp 0 rows Hloop) as Hlen.
  rewrite nth_error_map in Ha, Hb.
  destruct (nth_error rows i) as [ra|] eqn:Ei; [|discriminate].
  destruct (nth_error rows j) as [rb|] eqn:Ej; [|discriminate].
  simpl in Ha, Hb. injection Ha as <-. injection Hb as <-.
  assert (Hi : (i < List.length ramp)%nat)
    by (rewrite <- Hlen; apply nth_error_Some; rewrite Ei; discriminate).
  assert (Hj : (j < List.length ramp)%nat)
    by (rewrite <- Hlen; apply nth_error_Some; rewrite Ej; discriminate).
  destruct (nth_error ramp i) as [pi|] eqn:Epi;
    [|apply nth_error_None in Epi; lia].
  destruct (nth_error ramp j) as [pj|] eqn:Epj;
    [|apply nth_error_None in Epj; lia].
  destruct (monthly_new_loop_nth hh y m avg ramp 0 rows i pi Hloop Epi)
    as (per & ts & v & Hp & Ht & _ & Hn).
  destruct (monthly_new_loop_nth hh y m avg ramp 0 rows j pj Hloop Epj)
    as (per' & ts' & v' & Hp' & Ht' & _ & Hn').
  rewrite Hp in Hp'. injection Hp' as <-.
  rewrite Ei in Hn. injection Hn as ->.
  rewrite Ej in Hn'. injection Hn' as ->.
  cbn [ym]. eapply to_timestamp_lt; [|exact Ht|exact Ht']. lia.
Qed.

Lemma Timestamp_lt_neq (a b : Timestamp) :
  Timestamp_lt a b -> Timestamp_eqb b a = false.
Proof.
  intros H. destruct (Timestamp_eqb b a) eqn:E; [|reflexivity].
  apply Timestamp_eqb_eq in E. subst.
  unfold Timestamp_lt in H. rewrite Timestamp_ltb_irrefl in H. discriminate.
Qed.

Lemma Timestamp_lt_neq' (a b : Timestamp) :
  Timestamp_lt a b -> Timestamp_eqb a b = false.
Proof.
  intros H. destruct (Timestamp_eqb a b) eqn:E; [|reflexivity].
  apply Timestamp_eqb_eq in E. subst.
  unfold Timestamp_lt in H. rewrite Timestamp_ltb_irrefl in H. discriminate.
Qed.

Lemma filter_none {A : Type} (f : A -> bool) (l : list A) :
  (forall x, In x l -> f x = false) -> filter f l = [].
Proof.
  induction l as [|a t IH]; intros H; [reflexivity|]. simpl.
  rewrite (H a (or_introl eq_refl)). apply IH. intros x Hx. apply H. right; exact Hx.
Qed.

(** In a frame with strictly ascending periods each period selects
    its own record. *)
Lemma filter_sorted_period (df : DataFrame) (row : row) :
  StronglySorted Timestamp_lt (map ym df) -> In row df ->
  filter (fun r => Timestamp_eqb (ym r) (ym row)) df = [row].
Proof.
  induction df as [|a t IH]; intros Hs Hin; [contradiction|].
  simpl in Hs. inversion Hs as [|? ? Hst Ha]; subst.
  rewrite Forall_forall in Ha.
  simpl. destruct Hin as [->|Hin].
  - replace (Timestamp_eqb (ym row) (ym row)) with true
      by (symmetry; apply Timestamp_eqb_eq; reflexivity).
    f_equal. apply filter_none.
    intros x Hx. apply Timestamp_lt_neq. apply Ha, in_map, Hx.
  - rewrite (Timestamp_lt_neq' (ym a) (ym row)) by (apply Ha, in_map, Hin).
    apply IH; assumption.
Qed.

Lemma group_keys_of_sorted (df : DataFrame) :
  StronglySorted Timestamp_lt (map ym df) -> group_keys df = map ym df.
Proof.
  intros Hs. apply sorted_ext; [apply group_keys_sorted|assumption|].
  intros x. apply group_keys_In.
Qed.

(** X14. For a table with a single record that is projected, the
    grouped sum has the periods of the projection, in its order, and each
    volume is the reduction of the one volume of that period. *)
Theorem X14_single_record_aggregate
    (reduce : list Float.float -> Float.float) (avg : Float.float)
    (ramp : list Z) (r : site) (rows : DataFrame) :
  ramp <> [] -> has_na r = false -> project avg ramp r = Ok rows ->
  new_df reduce avg ramp [r]
  = Computed (map (fun row => (ym row, reduce [volume row])) rows).
Proof.
  intros Hramp Hna Hp.
  pose proof (project_periods_sorted avg ramp r rows Hp) as Hs.
  pose proof (project_length avg ramp r rows Hp) as Hlen.
  unfold new_df. rewrite (calc_single_kept avg ramp r rows Hna Hp).
  unfold aggregate. simpl List.concat. rewrite app_nil_r.
  destruct rows as [|row0 rest] eqn:Er;
    [destruct ramp; [contradiction|discriminate]|].
  rewrite <- Er in *. f_equal.
  unfold groupby_sum. rewrite group_keys_of_sorted by assumption.
  rewrite map_map. apply map_ext_in. intros row Hin.
  unfold group_values. rewrite filter_sorted_period by assumption.
  reflexivity.
Qed.

Lemma X14_witness :
  new_df sum_left default_hh_avg [30; 60; 85; 100] [example_site]
  = Computed
      (map (fun row => (ym row, sum_left [volume row]))
         [ {| ym := {| year := 2026; month := 3 |}; volume := Float.of_Z 4500 |};
           {| ym := {| year := 2026; month := 4 |}; volume := Float.of_Z 9000 |};
           {| ym := {| year := 2026; month := 5 |}; volume := Float.of_Z 12750 |};
           {| ym := {| year := 2026; month := 6 |}; volume := Float.of_Z 15000 |} ]).
Proof.
  apply (X14_single_record_aggregate sum_left default_hh_avg [30; 60; 85; 100]
           example_site).
  - discriminate.
  - reflexivity.
  - vm_compute. reflexivity.
Defined.

(** ** Unit counts of opposite sign *)

Lemma binary_round_aux_opp (s : bool) (m e : Z) (l : location) :
  binary_round_aux Float.prec Float.emax (negb s) m e l
  = SFopp (binary_round_aux Float.prec Float.emax s m e l).
Proof.
  unfold binary_round_aux.
  destruct (shr_fexp Float.prec Float.emax m e l) as [mrs1 e1].
  destruct (shr_fexp Float.prec Float.emax _ e1 loc_Exact) as [mrs2 e2].
  destruct (shr_m mrs2); [reflexivity| |reflexivity].
  destruct (e2 <=? Float.emax - Float.prec); reflexivity.
Qed.

Lemma of_Z_opp (z : Z) : z <> 0 -> Float.of_Z (- z) = SFopp (Float.of_Z z).
Proof.
  intros Hz. unfold Float.of_Z, binary_normalize.
  destruct z as [|p|p]; [contradiction| |]; simpl Z.opp; unfold binary_round;
    destruct (shl_align p 0 _) as [mz ez].
  - apply (binary_round_aux_opp false).
  - rewrite (binary_round_aux_opp false).
    destruct (binary_round_aux _ _ false _ _ _) as [[]|[]| |[] ? ?]; reflexivity.
Qed.

Lemma mul_opp_l (x y : Float.float) :
  Float.mul (SFopp x) y = SFopp (Float.mul x y).
Proof.
  unfold Float.mul.
  destruct x as [sx|sx| |sx mx ex], y as [sy|sy| |sy my ey]; simpl;
    try reflexivity; try (destruct sx, sy; reflexivity).
  rewrite <- binary_round_aux_opp. f_equal. destruct sx, sy; reflexivity.
Qed.

Lemma is_inf_opp (f : Float.float) : Float.is_inf (SFopp f) = Float.is_inf f.
Proof. destruct f; reflexivity. Qed.

Lemma new_volume_opp (hh : Z) (avg : Float.float) (p : Z) :
  hh <> 0 ->
  new_volume (- hh) avg p
  = match new_volume hh avg p with
    | Ok v => Ok (SFopp v)
    | Raise e => Raise e
    end.
Proof.
  intros Hh. unfold new_volume, Float.of_int.
  rewrite of_Z_opp, is_inf_opp by assumption.
  destruct (Float.is_inf (Float.of_Z hh)); simpl; [reflexivity|].
  destruct (Float.int_truediv p 100); simpl; [|reflexivity].
  rewrite !mul_opp_l. reflexivity.
Qed.

Lemma monthly_new_loop_opp (hh y m : Z) (avg : Float.float) (ramp : list Z) :
  hh <> 0 -> forall i,
  monthly_new_loop (- hh) y m avg i ramp
  = match monthly_new_loop hh y m avg i ramp with
    | Ok rows => Ok (map neg_row rows)
    | Raise e => Raise e
    end.
Proof.
  intros Hh. induction ramp as [|p rest IH]; intros i; simpl; [reflexivity|].
  destruct (Period_parse y m) as [per|]; simpl; [|reflexivity].
  destruct (to_timestamp _) as [ts|]; simpl; [|reflexivity].
  rewrite new_volume_opp by assumption.
  destruct (new_volume hh avg p) as [v|]; simpl; [|reflexivity].
  rewrite IH.
  destruct (monthly_new_loop hh y m avg (i + 1) rest); reflexivity.
Qed.

Lemma monthly_new_opp
    (hh : Z) (start : string) (avg : Float.float) (ramp : list Z) :
  hh <> 0 ->
  monthly_new (- hh) start avg ramp
  = match monthly_new hh start avg ramp with
    | Ok rows => Ok (map neg_row rows)
    | Raise e => Raise e
    end.
Proof.
  intros Hh. unfold monthly_new.
  destruct (parse_start start) as [[y m]|]; simpl; [|reflexivity].
  apply monthly_new_loop_opp. assumption.
Qed.

(** Cancellation *)

Lemma add_opp_finite (s : bool) (m : positive) (e : Z) :
  Float.add (S754_finite s m e) (S754_finite (negb s) m e) = Float.zero.
Proof.
  unfold Float.add, SFadd. rewrite Z.min_id.
  unfold shl_align. rewrite Z.sub_diag. simpl fst.
  destruct s; cbn [negb cond_Zopp];
    match goal with
    | |- binary_normalize _ _ ?x _ _ = _ => replace x with 0 by lia
    end; reflexivity.
Qed.

Lemma sub_self_finite (s : bool) (m : positive) (e : Z) :
  Float.sub (S754_finite s m e) (S754_finite s m e) = Float.zero.
Proof.
  unfold Float.sub, SFsub. rewrite Z.min_id.
  unfold shl_align. rewrite Z.sub_diag. simpl fst.
  match goal with
  | |- binary_normalize _ _ ?x _ _ = _ => replace x with 0 by lia
  end. reflexivity.
Qed.

Lemma sum_left_cancel (v : Float.float) :
  Float.is_finite v = true -> sum_left [v; SFopp v] = Float.zero.
Proof.
  destruct v as [[]|s| |s m e]; try discriminate; intros _;
    try reflexivity.
  unfold sum_left. cbn [fold_left SFopp].
  change (Float.add Float.zero (S754_finite s m e)) with (S754_finite s m e).
  apply add_opp_finite.
Qed.

Lemma kahan_first (s : bool) (m : positive) (e : Z) :
  kahan_step (Float.zero, Float.zero) (S754_finite s m e)
  = (S754_finite s m e, Float.zero).
Proof.
  unfold kahan_step. cbn [Float.is_nan]. cbv zeta.
  change (Float.sub (S754_finite s m e) Float.zero) with (S754_finite s m e).
  change (Float.add Float.zero (S754_finite s m e)) with (S754_finite s m e).
  change (Float.sub (S754_finite s m e) Float.zero) with (S754_finite s m e).
  rewrite sub_self_finite. reflexivity.
Qed.

Lemma kahan_second (s : bool) (m : positive) (e : Z) :
  kahan_step (S754_finite s m e, Float.zero) (S754_finite (negb s) m e)
  = (Float.zero, Float.zero).
Proof.
  unfold kahan_step. cbn [Float.is_nan]. cbv zeta.
  change (Float.sub (S754_finite (negb s) m e) Float.zero)
    with (S754_finite (negb s) m e).
  rewrite add_opp_finite.
  change (Float.sub Float.zero (S754_finite s m e))
    with (S754_finite (negb s) m e).
  rewrite sub_self_finite. reflexivity.
Qed.

Lemma sum_kahan_cancel (v : Float.float) :
  Float.is_finite v = true -> sum_kahan [v; SFopp v] = Float.zero.
Proof.
  destruct v as [[]|s| |s m e]; try discriminate; intros _;
    try reflexivity.
  unfold sum_kahan. cbn [fold_left SFopp].
  rewrite kahan_first, kahan_second. reflexivity.
Qed.

Lemma filter_neg_rows (k : Timestamp) (rows : DataFrame) :
  map volume (filter (fun r => Timestamp_eqb (ym r) k) (map neg_row rows))
  = map SFopp (map volume (filter (fun r => Timestamp_eqb (ym r) k) rows)).
Proof.
  induction rows as [|a t IH]; [reflexivity|]. simpl.
  destruct (Timestamp_eqb (ym a) k); simpl; rewrite IH; reflexivity.
Qed.

Lemma offsetting_records
    (reduce : list Float.float -> Float.float) (avg : Float.float)
    (ramp : list Z) (name name' : cell) (hh : Z) (start : string)
    (rows : DataFrame) :
  (forall v, Float.is_finite v = true -> reduce [v; SFopp v] = Float.zero) ->
  ramp <> [] -> hh <> 0 -> isna name = false -> isna name' = false ->
  project avg ramp (site_of name hh start) = Ok rows ->
  Forall (fun row => Float.is_finite (volume row) = true) rows ->
  new_df reduce avg ramp [site_of name hh start; site_of name' (- hh) start]
  = Computed (map (fun row => (ym row, Float.zero)) rows).
Proof.
  intros Hred Hramp Hh Hn Hn' Hp Hfin.
  assert (Hp' : project avg ramp (site_of name' (- hh) start)
                = Ok (map neg_row rows)).
  { unfold project in *. simpl in *.
    rewrite monthly_new_opp by assumption. rewrite Hp. reflexivity. }
  pose proof (project_periods_sorted avg ramp _ rows Hp) as Hs.
  pose proof (project_length avg ramp _ rows Hp) as Hlen.
  unfold new_df.
  rewrite (calc_cons avg ramp (site_of name hh start)).
  rewrite (calc_single_kept avg ramp _ rows) by
    (assumption || (unfold has_na; simpl; rewrite Hn; reflexivity)).
  rewrite (calc_single_kept avg ramp _ (map neg_row rows)) by
    (assumption || (unfold has_na; simpl; rewrite Hn'; reflexivity)).
  change ([rows] ++ [map neg_row rows]) with [rows; map neg_row rows].
  unfold aggregate. simpl List.concat. rewrite app_nil_r.
  destruct (rows ++ map neg_row rows) as [|row0 rest] eqn:Er.
  { apply app_eq_nil in Er. destruct Er as [-> _].
    destruct ramp; [contradiction|discriminate]. }
  rewrite <- Er. f_equal. unfold groupby_sum.
  assert (Hkeys : group_keys (rows ++ map neg_row rows) = map ym rows).
  { apply sorted_ext; [apply group_keys_sorted|assumption|].
    intros x. rewrite group_keys_In, map_app, in_app_iff, map_map.
    simpl. tauto. }
  rewrite Hkeys, map_map. apply map_ext_in. intros row Hin. f_equal.
  unfold group_values. rewrite filter_app, map_app, filter_neg_rows.
  rewrite filter_sorted_period by assumption. simpl.
  apply Hred. rewrite Forall_forall in Hfin. apply Hfin, Hin.
Qed.

(** ** Further theorems on strings, parameters and projections *)

(** X19. Splitting loses nothing: no piece contains the separator,
    joining the pieces with the separator gives the string back, and
    there is one piece more than the string has separators. *)
Theorem X19_split_join (sep : ascii) (s : string) :
  join sep (Py.split sep s) = s /\
  Forall (fun p => has_char sep p = false) (Py.split sep s) /\
  List.length (Py.split sep s) = S (count_char sep s).
Proof.
  split; [apply split_join|]. split; [apply split_pieces_clean|].
  apply split_length.
Qed.

(** X4. [int(str(z))] is [z] for every integer of at most 4300
    decimal digits, the range in which the interpreter performs both
    conversions whatever its version. *)
Theorem X4_int_of_str_round_trip (z : Z) :
  str_convertible z ->
  Py.int_of_string (Py.str_of_int z) = Ok z.
Proof. intros _. apply int_of_str_of_int. Qed.

Lemma X4_witness : Py.int_of_string (Py.str_of_int (- 2026)) = Ok (- 2026).
Proof.
  apply (X4_int_of_str_round_trip (- 2026)).
  unfold str_convertible, max_str_digits. vm_compute. reflexivity.
Defined.

(** X1. A ramp text that parses gives a ramp with at least one entry;
    with such a ramp the grouped sum raises nothing, whatever the table
    holds. *)
Theorem X1_parsed_ramp_never_raises (s : string) (ramp : list Z) :
  parse_ramp s = Ok ramp ->
  ramp <> [] /\
  forall reduce avg new_sites e,
    new_df reduce avg ramp new_sites <> Uncaught e.
Proof.
  intros H. apply parse_ramp_nonempty in H. split; [assumption|].
  intros reduce avg new_sites e. unfold new_df.
  apply aggregate_not_uncaught, calc_frames_nonempty, H.
Qed.

Lemma X1_witness :
  [30; 60; 85; 100] <> [] /\
  forall reduce avg new_sites e,
    new_df reduce avg [30; 60; 85; 100] new_sites <> Uncaught e.
Proof. apply (X1_parsed_ramp_never_raises default_ramp_text). reflexivity. Defined.

Lemma key_matches_false (name : string) (k : cell) :
  k <> VStr name -> key_matches name k = false.
Proof.
  destruct k as [|z|s]; simpl; try reflexivity.
  intros H. apply String.eqb_neq. congruence.
Qed.

Lemma filter_no_match {V : Type} (name : string) (l : list (cell * V)) :
  Forall (fun row => fst row <> VStr name) l ->
  filter (fun row => key_matches name (fst row)) l = [].
Proof.
  induction 1 as [|row l Hrow _ IH]; [reflexivity|]. simpl.
  rewrite key_matches_false by assumption. assumption.
Qed.

(** X7. [get_param] returns the value of the first record whose key is
    the name, as it is, a missing value included; later records with the
    same key are not read. *)
Theorem X7_get_param_first_match {V : Type} (before after : list (cell * V))
    (name : string) (v default : V) :
  Forall (fun row => fst row <> VStr name) before ->
  get_param (before ++ (VStr name, v) :: after) name default = v.
Proof.
  intros H. unfold get_param. rewrite filter_app, filter_no_match by assumption.
  simpl. rewrite String.eqb_refl. reflexivity.
Qed.

Lemma X7_witness :
  get_param ([(VStr "a", VInt 1); (VNone, VInt 2)]
             ++ (VStr "b", VStr "x") :: [(VStr "b", VStr "y")])
    "b" (VStr "default") = VStr "x".
Proof.
  apply (X7_get_param_first_match [(VStr "a", VInt 1); (VNone, VInt 2)]
           [(VStr "b", VStr "y")] "b" (VStr "x") (VStr "default")).
  repeat constructor; simpl; congruence.
Defined.

(** X8. [get_param] returns the default when no record has the name
    as its key; a record whose key is missing or a number does not
    count. *)
Theorem X8_get_param_default {V : Type} (params : list (cell * V))
    (name : string) (default : V) :
  Forall (fun row => fst row <> VStr name) params ->
  get_param params name default = default.
Proof.
  intros H. unfold get_param. rewrite filter_no_match by assumption.
  reflexivity.
Qed.

Lemma X8_witness :
  get_param example_params "c" (VStr "default") = VStr "default".
Proof.
  apply (X8_get_param_default example_params "c" (VStr "default")).
  repeat constructor; simpl; congruence.
Defined.

(** X9. A parameter table without a record for the ramp gives the
    ramp 30, 60, 85, 100. *)
Theorem X9_ramp_param_default (params : list (cell * cell)) :
  Forall (fun row => fst row <> VStr ramp_key) params ->
  ramp_param params = Ok [30; 60; 85; 100].
Proof.
  intros H. unfold ramp_param, get_param.
  rewrite filter_no_match by assumption. reflexivity.
Qed.

Lemma X9_witness : ramp_param example_params = Ok [30; 60; 85; 100].
Proof.
  apply (X9_ramp_param_default example_params).
  unfold ramp_key. repeat constructor; simpl; congruence.
Defined.

(** X10. A record for the ramp whose value is missing does not fall
    back to the default: the missing value is printed and read as an
    integer, which raises [ValueError]. *)
Theorem X10_ramp_param_missing_value (before after : list (cell * cell)) :
  Forall (fun row => fst row <> VStr ramp_key) before ->
  ramp_param (before ++ (VStr ramp_key, VNone) :: after) = Raise ValueError.
Proof.
  intros H. unfold ramp_param, get_param.
  rewrite filter_app, filter_no_match by assumption.
  cbn [app filter fst key_matches]. rewrite String.eqb_refl. reflexivity.
Qed.

Lemma X10_witness :
  ramp_param (example_params ++ (VStr ramp_key, VNone)
              :: [(VStr ramp_key, VStr "10,20")])
  = Raise ValueError.
Proof.
  apply (X10_ramp_param_missing_value example_params
           [(VStr ramp_key, VStr "10,20")]).
  unfold ramp_key. repeat constructor; simpl; congruence.
Defined.

(** X15. A unit count of the opposite sign mirrors the projection:
    [monthly_new] raises for [-hh] exactly when it raises for [hh], and
    otherwise returns the same periods, each volume with the same
    magnitude and the opposite sign; a NaN volume stays NaN. *)
Theorem X15_negative_units_mirror
    (hh : Z) (start : string) (avg : Float.float) (ramp : list Z) :
  hh <> 0 ->
  monthly_new (- hh) start avg ramp
  = match monthly_new hh start avg ramp with
    | Ok rows => Ok (map neg_row rows)
    | Raise e => Raise e
    end.
Proof. apply monthly_new_opp. Qed.

Lemma X15_witness :
  monthly_new (- 5) "2026-03" default_hh_avg [30; 60; 85; 100]
  = match monthly_new 5 "2026-03" default_hh_avg [30; 60; 85; 100] with
    | Ok rows => Ok (map neg_row rows)
    | Raise e => Raise e
    end.
Proof.
  apply (X15_negative_units_mirror 5 "2026-03" default_hh_avg [30; 60; 85; 100]).
  discriminate.
Defined.

(** X16. A record of [-hh] units offsets a record of [hh] units that
    starts in the same month: when the volumes of the projection are
    finite, every volume of the grouped sum is [0.0], under left-to-right
    addition and under compensated summation. *)
Theorem X16_offsetting_records
    (avg : Float.float) (ramp : list Z) (name name' : cell) (hh : Z)
    (start : string) (rows : DataFrame) :
  ramp <> [] -> hh <> 0 -> isna name = false -> isna name' = false ->
  project avg ramp (site_of name hh start) = Ok rows ->
  Forall (fun row => Float.is_finite (volume row) = true) rows ->
  new_df sum_left avg ramp [site_of name hh start; site_of name' (- hh) start]
  = Computed (map (fun row => (ym row, Float.zero)) rows) /\
  new_df sum_kahan avg ramp [site_of name hh start; site_of name' (- hh) start]
  = Computed (map (fun row => (ym row, Float.zero)) rows).
Proof.
  intros Hramp Hh Hn Hn' Hp Hfin.
  split; apply offsetting_records; auto using sum_left_cancel, sum_kahan_cancel.
Qed.

Lemma X16_witness :
  new_df sum_left default_hh_avg [30; 60; 85; 100]
    [site_of (VStr "A") 500 "2026-03"; site_of (VStr "B") (- 500) "2026-03"]
  = Computed
      (map (fun row => (ym row, Float.zero))
         [ {| ym := {| year := 2026; month := 3 |}; volume := Float.of_Z 4500 |};
           {| ym := {| year := 2026; month := 4 |}; volume := Float.of_Z 9000 |};
           {| ym := {| year := 2026; month := 5 |}; volume := Float.of_Z 12750 |};
           {| ym := {| year := 2026; month := 6 |}; volume := Float.of_Z 15000 |} ]) /\
  new_df sum_kahan default_hh_avg [30; 60; 85; 100]
    [site_of (VStr "A") 500 "2026-03"; site_of (VStr "B") (- 500) "2026-03"]
  = Computed
      (map (fun row => (ym row, Float.zero))
         [ {| ym := {| year := 2026; month := 3 |}; volume := Float.of_Z 4500 |};
           {| ym := {| year := 2026; month := 4 |}; volume := Float.of_Z 9000 |};
           {| ym := {| year := 2026; month := 5 |}; volume := Float.of_Z 12750 |};
           {| ym := {| year := 2026; month := 6 |}; volume := Float.of_Z 15000 |} ]).
Proof.
  apply (X16_offsetting_records default_hh_avg [30; 60; 85; 100]
           (VStr "A") (VStr "B") 500 "2026-03").
  - discriminate.
  - discriminate.
  - reflexivity.
  - reflexivity.
  - vm_compute. reflexivity.
  - repeat constructor.
Defined.
